(** * BeatDash: the music-driven game engine

    A shallow embedding of the gameplay engine of BeatDash and the
    properties of its music parameter mapper, its session callbacks and
    its mode controllers.

    The repository holds two generations of the engine:
    - [Engine]: src/src/game/engine.ts (plain coloured actors);
    - [AssetEngine]: the engine source that follows the type declarations
      in src/src/types/game.ts (sprites from "@/game/assets", shared
      [getBpm]/[getBeatMs] helpers, beat counter and camera shake).

    JavaScript numbers are IEEE-754 binary64 values; they are modelled by
    Rocq's primitive floats, whose operations are the same binary64
    operations with round-to-nearest-even. *)

From Stdlib Require Import ZArith NArith List Bool String Ascii Sorted Floats Lia.
Import ListNotations.

Set Warnings "-inexact-float".

(* ================================================================= *)
(** * JavaScript numbers *)

Module JS.

Definition number := float.

(** [ToBoolean] on a number: [0], [-0] and [NaN] are falsy. *)
Definition truthy (x : number) : bool :=
  negb (PrimFloat.is_nan x || PrimFloat.is_zero x).

(** [x || d] where [x] is a possibly missing number ([undefined] is
    falsy as well). *)
Definition or_else (x : option number) (d : number) : number :=
  match x with
  | Some v => if truthy v then v else d
  | None => d
  end.

(** [Math.min(a, b)]: NaN if either argument is NaN; [-0] is below [+0]. *)
Definition Math_min (a b : number) : number :=
  if PrimFloat.is_nan a || PrimFloat.is_nan b then PrimFloat.nan
  else if PrimFloat.ltb a b then a
  else if PrimFloat.ltb b a then b
  else if PrimFloat.get_sign a then a else b.

(** [Math.max(a, b)]: NaN if either argument is NaN; [+0] is above [-0]. *)
Definition Math_max (a b : number) : number :=
  if PrimFloat.is_nan a || PrimFloat.is_nan b then PrimFloat.nan
  else if PrimFloat.ltb a b then b
  else if PrimFloat.ltb b a then a
  else if PrimFloat.get_sign a then b else a.

End JS.

(* ================================================================= *)
(** * Data model (src/src/types/game.ts) *)

Record PlaylistMetrics : Type := mkMetrics {
  playlistName : string;
  playlistImage : string;
  trackCount : JS.number;
  avgTempo : JS.number;
  avgEnergy : JS.number;
  avgValence : JS.number;
  avgAcousticness : JS.number;
  avgDanceability : JS.number;
  avgLoudness : JS.number
}.

Record ColorPalette : Type := mkPalette {
  background : string;
  player : string;
  enemies : string;
  collectibles : string;
  platforms : string;
  accent : string
}.

(** [gameType] is declared as a union of four string literals, but the
    configuration is parsed JSON cast to the interface, so at run time it
    is an arbitrary string; [metrics] is an optional property. The optional
    [assets] descriptors only feed the renderer and are left out. *)
Record GameConfiguration : Type := mkConfig {
  gameType : string;
  title : string;
  description : string;
  gravity : JS.number;
  playerSpeed : JS.number;
  spawnRateMs : JS.number;
  difficulty : JS.number;
  colorPalette : ColorPalette;
  enemyTypes : list string;
  backgroundTheme : string;
  musicInfluence : string;
  metrics : option PlaylistMetrics
}.

(** The spec's [clamp(x, lo, hi)]. *)
Definition clamp (x lo hi : JS.number) : JS.number :=
  if PrimFloat.ltb x lo then lo
  else if PrimFloat.ltb hi x then hi
  else x.

(* ================================================================= *)
(** * Session callbacks and the session closures of [createGame] *)

(** The score starts at [0] and only receives the integer increments the
    controllers pass; it is kept as an integer (binary64 is exact on these
    sums below 2^53). *)
Inductive Callback : Type :=
  | OnScore (score : Z)
  | OnGameOver (finalScore : Z).

(** [score] is the captured [let score = 0]; [calls] is the trace of
    invocations of [callbacks.onScore] / [callbacks.onGameOver], oldest
    first. *)
Record Session : Type := mkSession {
  score : Z;
  calls : list Callback
}.

Definition newSession : Session := mkSession 0 [].

(** [const addScore = (points) => { score += points; callbacks.onScore(score); }] *)
Definition addScore (points : Z) (s : Session) : Session :=
  let score' := (score s + points)%Z in
  mkSession score' (calls s ++ [OnScore score']).

(** [const gameOver = () => { callbacks.onGameOver(score); }] *)
Definition gameOver (s : Session) : Session :=
  mkSession (score s) (calls s ++ [OnGameOver (score s)]).

Definition isGameOver (c : Callback) : bool :=
  match c with OnGameOver _ => true | OnScore _ => false end.

(** Number of [onGameOver] invocations so far. *)
Definition gameOverCount (s : Session) : nat :=
  List.length (filter isGameOver (calls s)).

(** The spec's [terminal] flag: the session has reported game over. The
    code keeps no such flag; it is read off the callback trace. *)
Definition terminal (s : Session) : bool :=
  existsb isGameOver (calls s).

(* ================================================================= *)
(** * The play field as the controllers see it *)

(** Which of the four [setup*] functions wires the scene. *)
Inductive Controller : Type :=
  | Platformer
  | Dodge
  | Collector
  | Runner.

(** What a handler attached to a spawned actor is attached to: the
    platformer's and collector's pickups, or an enemy / obstacle. *)
Inductive Kind : Type :=
  | Pickup
  | Hazard.

(** [evt.other.owner] of a [collisionstart] event. *)
Inductive Owner : Type :=
  | ThePlayer
  | AnotherActor.

(** The handler firings of a running scene. Actors are named by the order
    in which they were added to the scene. The spawn timers only add an
    actor with its handlers and do not touch the session, so they do not
    appear. *)
Inductive Signal : Type :=
  | CollisionStart (k : Kind) (self : nat) (other : Owner)
  | ExitViewport (k : Kind) (self : nat)
  | ScoreTimer
  | PreUpdate (playerY drawHeight : JS.number).

(** The variables the closures of one [setup*] call share: the session,
    the collector's [let missed = 0], and the actors on which [kill()] has
    been called. *)
Record Game : Type := mkGame {
  session : Session;
  missed : nat;
  killed : list (Kind * nat)
}.

Definition newGame : Game := mkGame newSession 0 [].

Definition onSession (f : Session -> Session) (g : Game) : Game :=
  mkGame (f (session g)) (missed g) (killed g).

(** [actor.kill()] *)
Definition kill (k : Kind) (self : nat) (g : Game) : Game :=
  mkGame (session g) (missed g) ((k, self) :: killed g).

Definition Kind_eqb (a b : Kind) : bool :=
  match a, b with
  | Pickup, Pickup | Hazard, Hazard => true
  | _, _ => false
  end.

Definition isKilled (k : Kind) (self : nat) (g : Game) : bool :=
  existsb (fun a => Kind_eqb (fst a) k && Nat.eqb (snd a) self) (killed g).

(** [player.pos.y > engine.drawHeight + 100] *)
Definition fellOff (playerY drawHeight : JS.number) : bool :=
  PrimFloat.ltb (drawHeight + 100)%float playerY.

(** [const maxMissed = 10] in [setupCollector]. *)
Definition maxMissed : nat := 10.

(* ================================================================= *)
(** * Mode controllers

    [setupPlatformer], [setupDodge], [setupCollector] and [setupRunner]
    attach the same score and game-over handlers in both engine sources
    (the sources differ in how actors are drawn). Each definition gives
    what the handlers of that mode do when they fire. *)

Definition setupPlatformer (sig : Signal) (g : Game) : Game :=
  match sig with
  | CollisionStart Pickup self other =>
      (* col.on("collisionstart"): addScore(10); col.kill(); *)
      match other with
      | ThePlayer => kill Pickup self (onSession (addScore 10) g)
      | AnotherActor => g
      end
  | CollisionStart Hazard self other =>
      (* enemy.on("collisionstart"): gameOver(); *)
      match other with
      | ThePlayer => onSession gameOver g
      | AnotherActor => g
      end
  | ExitViewport Hazard self =>
      (* enemy.on("exitviewport"): enemy.kill(); addScore(5); *)
      onSession (addScore 5) (kill Hazard self g)
  | ExitViewport Pickup self => g
  | ScoreTimer => g
  | PreUpdate playerY drawHeight =>
      if fellOff playerY drawHeight then onSession gameOver g else g
  end.

Definition setupDodge (sig : Signal) (g : Game) : Game :=
  match sig with
  | CollisionStart Hazard self other =>
      (* obs.on("collisionstart"): gameOver(); *)
      match other with
      | ThePlayer => onSession gameOver g
      | AnotherActor => g
      end
  | ExitViewport Hazard self =>
      (* obs.on("exitviewport"): obs.kill(); addScore(1); *)
      onSession (addScore 1) (kill Hazard self g)
  | ScoreTimer => onSession (addScore 1) g
  | CollisionStart Pickup _ _ | ExitViewport Pickup _ | PreUpdate _ _ => g
  end.

Definition setupCollector (sig : Signal) (g : Game) : Game :=
  match sig with
  | CollisionStart Pickup self other =>
      (* p.on("collisionstart"): addScore(5); p.kill(); *)
      match other with
      | ThePlayer => kill Pickup self (onSession (addScore 5) g)
      | AnotherActor => g
      end
  | ExitViewport Pickup self =>
      (* p.on("exitviewport"): p.kill(); missed++;
         if (missed >= maxMissed) gameOver(); *)
      let g1 := kill Pickup self g in
      let g2 := mkGame (session g1) (S (missed g1)) (killed g1) in
      if Nat.leb maxMissed (missed g2) then onSession gameOver g2 else g2
  | CollisionStart Hazard _ _ | ExitViewport Hazard _ | ScoreTimer
  | PreUpdate _ _ => g
  end.

Definition setupRunner (sig : Signal) (g : Game) : Game :=
  match sig with
  | CollisionStart Hazard self other =>
      (* obs.on("collisionstart"): gameOver(); *)
      match other with
      | ThePlayer => onSession gameOver g
      | AnotherActor => g
      end
  | ExitViewport Hazard self =>
      (* obs.on("exitviewport"): obs.kill(); addScore(10); *)
      onSession (addScore 10) (kill Hazard self g)
  | ScoreTimer => onSession (addScore 1) g
  | PreUpdate playerY drawHeight =>
      if fellOff playerY drawHeight then onSession gameOver g else g
  | CollisionStart Pickup _ _ | ExitViewport Pickup _ => g
  end.

Definition handlers (c : Controller) : Signal -> Game -> Game :=
  match c with
  | Platformer => setupPlatformer
  | Dodge => setupDodge
  | Collector => setupCollector
  | Runner => setupRunner
  end.

(** Modelled from the spec: the entity substrate (the Excalibur scene) is
    not part of the sources. Following section 4.2, removal marks an actor
    dead and excludes it from all later processing, so a signal addressed
    to a killed actor reaches no handler; timers and the per-frame update
    always run. *)
Definition deliver (c : Controller) (sig : Signal) (g : Game) : Game :=
  match sig with
  | CollisionStart k self _ | ExitViewport k self =>
      if isKilled k self g then g else handlers c sig g
  | ScoreTimer | PreUpdate _ _ => handlers c sig g
  end.

(** A scene run: the signals of successive ticks, in dispatch order. *)
Definition run (c : Controller) (sigs : list Signal) (g : Game) : Game :=
  fold_left (fun g sig => deliver c sig g) sigs g.

(** What one delivery can do to the session: nothing, one [addScore] of
    1, 5 or 10 points, or one [gameOver]. *)
Inductive SessionStep (s : Session) : Session -> Prop :=
  | StepIdle : SessionStep s s
  | StepScore (p : Z) : In p [1; 5; 10]%Z -> SessionStep s (addScore p s)
  | StepOver : SessionStep s (gameOver s).

(** Each killed reward has been counted once: five points or one miss. *)
Definition collectorAccount (g : Game) : Prop :=
  NoDup (killed g) /\
  (score (session g) + 5 * Z.of_nat (missed g) =
   5 * Z.of_nat (List.length (killed g)))%Z.

(** The switch of [createGame] over [config.gameType], the same in both
    engine sources. *)
Definition createGame (config : GameConfiguration) : Controller :=
  if String.eqb (gameType config) "platformer" then Platformer
  else if String.eqb (gameType config) "dodge" then Dodge
  else if String.eqb (gameType config) "collector" then Collector
  else if String.eqb (gameType config) "runner" then Runner
  else Platformer.

(** What the pulse timer's callback does to the overlay and the camera. *)
Inductive Effect : Type :=
  | SetOpacity (o : JS.number)
  | Fade (target duration : JS.number)
  | Shake (x y duration : JS.number).

(* ================================================================= *)
(** * src/src/game/engine.ts *)

Module Engine.

(** [const bpm = config.metrics?.avgTempo || 120;
     const beatInterval = 60000 / bpm;] in [addBeatPulse]. *)
Definition beatInterval (config : GameConfiguration) : JS.number :=
  (60000 / JS.or_else (option_map avgTempo (metrics config)) 120)%float.

(** The [fcn] of [pulseTimer] in [addBeatPulse], fired every
    [beatInterval]:
    [pulseOverlay.graphics.opacity = 0.08;
     pulseOverlay.actions.fade(0, beatInterval * 0.8);] *)
Definition addBeatPulse (config : GameConfiguration) : list Effect :=
  [SetOpacity 0.08%float; Fade 0%float (beatInterval config * 0.8)%float].

Definition getMusicSpawnRate (config : GameConfiguration) : JS.number :=
  match metrics config with
  | None => spawnRateMs config
  | Some m =>
      let bpm := avgTempo m in
      let energy := avgEnergy m in
      let beatMs := (60000 / bpm)%float in
      let energyMultiplier := (1.5 - energy)%float in
      JS.Math_max 400%float
        (JS.Math_min 3000%float (beatMs * energyMultiplier)%float)
  end.

Definition getMusicSpeedMultiplier (config : GameConfiguration) : JS.number :=
  match metrics config with
  | None => 1%float
  | Some m =>
      let tempo := avgTempo m in
      let energy := avgEnergy m in
      let tempoFactor := (tempo / 120)%float in
      (tempoFactor * (0.7 + energy * 0.6))%float
  end.

Definition getMusicGravity (config : GameConfiguration) : JS.number :=
  match metrics config with
  | None => gravity config
  | Some m =>
      let acousticness := avgAcousticness m in
      (gravity config * (1.2 - acousticness * 0.7))%float
  end.

End Engine.

(* ================================================================= *)
(** * The engine source after the type declarations of src/src/types/game.ts *)

Module AssetEngine.

Definition getBpm (config : GameConfiguration) : JS.number :=
  JS.or_else (option_map avgTempo (metrics config)) 120%float.

Definition getBeatMs (config : GameConfiguration) : JS.number :=
  (60000 / getBpm config)%float.

Definition getMusicSpawnRate (config : GameConfiguration) : JS.number :=
  match metrics config with
  | None => spawnRateMs config
  | Some m =>
      let beatMs := getBeatMs config in
      let energy := avgEnergy m in
      let energyMultiplier := (1.5 - energy)%float in
      JS.Math_max 400%float
        (JS.Math_min 3000%float (beatMs * energyMultiplier)%float)
  end.

Definition getMusicSpeedMultiplier (config : GameConfiguration) : JS.number :=
  match metrics config with
  | None => 1%float
  | Some m =>
      let tempoFactor := (avgTempo m / 120)%float in
      (tempoFactor * (0.7 + avgEnergy m * 0.6))%float
  end.

Definition getMusicGravity (config : GameConfiguration) : JS.number :=
  match metrics config with
  | None => gravity config
  | Some m => (gravity config * (1.2 - avgAcousticness m * 0.7))%float
  end.

(** [const energy = config.metrics?.avgEnergy || 0.5;] in [addBeatPulse]. *)
Definition pulseEnergy (config : GameConfiguration) : JS.number :=
  JS.or_else (option_map avgEnergy (metrics config)) 0.5%float.

(** The [fcn] of [pulseTimer] in [addBeatPulse]. It takes the captured
    [beatCount] and gives its new value with the effects of this beat. *)
Definition addBeatPulse (config : GameConfiguration) (beatCount : nat)
  : nat * list Effect :=
  let beatInterval := getBeatMs config in
  let energy := pulseEnergy config in
  let beatCount := S beatCount in
  let intensity := (0.04 + energy * 0.06)%float in
  (beatCount,
   [SetOpacity intensity; Fade 0%float (beatInterval * 0.8)%float] ++
   (if Nat.eqb (Nat.modulo beatCount 4) 0 && PrimFloat.ltb 0.5%float energy
    then let shakeAmt := ((energy - 0.5) * 6)%float in
         [Shake shakeAmt shakeAmt (beatInterval * 0.3)%float]
    else [])).

(** The beat counter and the effects of the first [n] firings. *)
Fixpoint beats (config : GameConfiguration) (n : nat) : nat * list (list Effect) :=
  match n with
  | O => (O, [])
  | S n' =>
      let '(count, fired) := beats config n' in
      let '(count', effects) := addBeatPulse config count in
      (count', fired ++ [effects])
  end.

End AssetEngine.

(* ================================================================= *)
(** * Binary64 values *)

(** A binary64 value that is zero, finite or infinite with the sign bit
    clear. *)
Definition nonneg_spec (x : spec_float) : Prop :=
  x = S754_zero false \/ x = S754_infinity false \/
  exists m e, x = S754_finite false m e.

(* ================================================================= *)
(** * Sample inputs *)

Module Samples.

Definition palette : ColorPalette :=
  mkPalette "#0a0a1a" "#00ffcc" "#ff3366" "#ffcc00" "#334455" "#9966ff".

(** Metrics with the given tempo, energy and acousticness. *)
Definition metricsOf (tempo energy acousticness : JS.number) : PlaylistMetrics :=
  mkMetrics "Spotify Playlist" "" 20%float tempo energy 0.5%float
    acousticness 0.5%float (-8)%float.

(** A configuration with the given game type, gravity and metrics. *)
Definition configOf (type : string) (grav : JS.number)
    (m : option PlaylistMetrics) : GameConfiguration :=
  mkConfig type "Neon Rush" "Dodge the beat" grav 250%float 1200%float
    5%float palette ["drone"%string; "spike"%string] "city" "tempo" m.

(** 140 BPM at energy 0.8, the spec's running example. *)
Definition upbeat : GameConfiguration :=
  configOf "dodge" 1%float (Some (metricsOf 140%float 0.8%float 0.2%float)).

(** A fully acoustic playlist. *)
Definition acoustic : GameConfiguration :=
  configOf "runner" 1%float (Some (metricsOf 100%float 0.4%float 1%float)).

(** No metrics attached. *)
Definition bare : GameConfiguration := configOf "collector" 1.3%float None.

(** Metrics whose tempo is zero. *)
Definition silent : GameConfiguration :=
  configOf "platformer" 1%float (Some (metricsOf 0%float 0.5%float 0.2%float)).

(** Metrics whose energy is zero. *)
Definition calm : GameConfiguration :=
  configOf "platformer" 1%float (Some (metricsOf 120%float 0%float 0.2%float)).

(** A game type outside the four known ones. *)
Definition shooter : GameConfiguration := configOf "shooter" 1%float None.

(** Eleven rewards leaving the field one after the other. *)
Definition elevenMisses : list Signal :=
  map (ExitViewport Pickup) (seq 0 11).

(** Two obstacles hitting the player in the same tick. *)
Definition doubleHit : list Signal :=
  [CollisionStart Hazard 0 ThePlayer; CollisionStart Hazard 1 ThePlayer].

End Samples.

(* ================================================================= *)
(** * Scene helpers of the second engine source *)

Module Visuals.

(** [addBeatRotation]: [const rotSpeed = (bpm / 120) * 1.5;
    actor.angularVelocity = rotSpeed;] with [bpm = getBpm(config)]. *)
Definition addBeatRotation (config : GameConfiguration) : JS.number :=
  (AssetEngine.getBpm config / 120 * 1.5)%float.

End Visuals.

(* ================================================================= *)
(** * Player controls (the [preupdate] and [postcollision] handlers) *)

(** What [engine.input.keyboard] answers during one frame: [isHeld] for
    the movement keys and [wasPressed] for the jump keys. *)
Record Keyboard : Type := mkKeyboard {
  heldLeft : bool;
  heldA : bool;
  heldRight : bool;
  heldD : bool;
  heldUp : bool;
  heldW : bool;
  heldDown : bool;
  heldS : bool;
  pressedSpace : bool;
  pressedUp : bool;
  pressedW : bool
}.

(** The parts of the player the handlers write: [player.vel],
    [player.acc.y] and the captured [isGrounded]. *)
Record Player : Type := mkPlayer {
  velX : JS.number;
  velY : JS.number;
  accY : JS.number;
  isGrounded : bool
}.


Definition jumpPressed (k : Keyboard) : bool :=
  pressedSpace k || pressedUp k || pressedW k.


(** The player part of the [preupdate] handler of [setupPlatformer];
    [gravity] is [800 * getMusicGravity(config)]. *)
Definition platformerControls (config : GameConfiguration) (gravity : JS.number)
    (k : Keyboard) (p : Player) : Player :=
  let accY' := gravity in
  let velX' :=
    if heldLeft k || heldA k then (- playerSpeed config)%float
    else if heldRight k || heldD k then playerSpeed config
    else 0%float in
  if jumpPressed k && isGrounded p
  then mkPlayer velX' (-500)%float accY' false
  else mkPlayer velX' (velY p) accY' (isGrounded p).


(** The velocity part of the [preupdate] handler of [setupDodge]. *)
Definition dodgeControls (config : GameConfiguration)
    (k : Keyboard) (p : Player) : Player :=
  let speed := playerSpeed config in
  let velX' :=
    if heldLeft k || heldA k then (- speed)%float
    else if heldRight k || heldD k then speed
    else 0%float in
  let velY' :=
    if heldUp k || heldW k then (- speed)%float
    else if heldDown k || heldS k then speed
    else 0%float in
  mkPlayer velX' velY' (accY p) (isGrounded p).

(** The velocity part of the [preupdate] handler of [setupCollector]:
    four independent [if]s, each overwriting the one before. *)
Definition collectorControls (config : GameConfiguration)
    (k : Keyboard) (p : Player) : Player :=
  let speed := (playerSpeed config * 0.8)%float in
  let velX0 := 0%float in
  let velY0 := 0%float in
  let velX1 := if heldLeft k || heldA k then (- speed)%float else velX0 in
  let velX2 := if heldRight k || heldD k then speed else velX1 in
  let velY1 := if heldUp k || heldW k then (- speed)%float else velY0 in
  let velY2 := if heldDown k || heldS k then speed else velY1 in
  mkPlayer velX2 velY2 (accY p) (isGrounded p).





(** The player as [setupPlatformer] creates it: at rest, not grounded. *)
Definition platformerPlayer : Player := mkPlayer 0%float 0%float 0%float false.


(* ================================================================= *)
(** * Reading the callback trace *)

(** The number a callback invocation carries. *)
Definition reported (c : Callback) : Z :=
  match c with OnScore v => v | OnGameOver v => v end.

(** The scores passed to [onScore], oldest first. *)
Fixpoint scoreReports (cs : list Callback) : list Z :=
  match cs with
  | [] => []
  | OnScore v :: rest => v :: scoreReports rest
  | OnGameOver _ :: rest => scoreReports rest
  end.

(** The trace agrees with the score: nothing reported is negative or
    above the current score, the [onScore] reports increase strictly, and
    the latest report is the current score. *)
Definition traceAgrees (s : Session) : Prop :=
  (0 <= score s)%Z /\
  Forall (fun v => 0 <= v <= score s)%Z (map reported (calls s)) /\
  StronglySorted Z.lt (scoreReports (calls s)) /\
  Forall (fun v => 0 < v <= score s)%Z (scoreReports (calls s)) /\
  last (map reported (calls s)) 0%Z = score s.

(** How many actors of a kind have been killed. *)
Definition killedOf (k : Kind) (g : Game) : nat :=
  List.length (filter (fun a => Kind_eqb (fst a) k) (killed g)).



(* ================================================================= *)
(** * The page (src/pages/Index.tsx, at the end of src/src/game/engine.ts) *)

Module Index.

(** A JavaScript string: its UTF-16 code units. *)
Definition jsString := list N.

(** The code units of an ASCII literal. *)
Definition lit (s : string) : jsString :=
  map N_of_ascii (list_ascii_of_string s).

(** The character class [[a-zA-Z0-9]]. *)
Definition isAlnum (c : N) : bool :=
  ((97 <=? c) && (c <=? 122) || (65 <=? c) && (c <=? 90)
   || (48 <=? c) && (c <=? 57))%N.

(** The code units [String.prototype.trim] removes: WhiteSpace and
    LineTerminator of ECMAScript. *)
Definition isWhite (c : N) : bool :=
  ((9 <=? c) && (c <=? 13) || (c =? 32) || (c =? 160) || (c =? 5760)
   || (8192 <=? c) && (c <=? 8202) || (c =? 8232) || (c =? 8233)
   || (c =? 8239) || (c =? 8287) || (c =? 12288) || (c =? 65279))%N.

Fixpoint dropWhile (f : N -> bool) (s : jsString) : jsString :=
  match s with
  | [] => []
  | c :: rest => if f c then dropWhile f rest else s
  end.

Fixpoint takeWhile (f : N -> bool) (s : jsString) : jsString :=
  match s with
  | [] => []
  | c :: rest => if f c then c :: takeWhile f rest else []
  end.

(** [input.trim()] *)
Definition trim (s : jsString) : jsString :=
  rev (dropWhile isWhite (rev (dropWhile isWhite s))).

(** [s] without the leading [p], if it starts with [p]. *)
Fixpoint stripPrefix (p s : jsString) : option jsString :=
  match p, s with
  | [], _ => Some s
  | _ :: _, [] => None
  | a :: p', b :: s' => if N.eqb a b then stripPrefix p' s' else None
  end.

(** The pattern [/playlist\/([a-zA-Z0-9]+)/] tried at the start of [s]:
    the capture group is the longest run of class characters, and must
    not be empty. *)
Definition matchHere (s : jsString) : option jsString :=
  match stripPrefix (lit "playlist/") s with
  | Some rest =>
      match takeWhile isAlnum rest with
      | [] => None
      | id => Some id
      end
  | None => None
  end.

(** [input.match(/playlist\/([a-zA-Z0-9]+)/)], reduced to its capture
    group: the leftmost position at which the pattern matches. *)
Fixpoint urlMatch (s : jsString) : option jsString :=
  match matchHere s with
  | Some id => Some id
  | None =>
      match s with
      | [] => None
      | _ :: rest => urlMatch rest
      end
  end.

(** [extractPlaylistId]; [None] is [null]. *)
Definition extractPlaylistId (input : jsString) : option jsString :=
  match urlMatch input with
  | Some id => Some id
  | None =>
      let t := trim input in
      if Nat.eqb (List.length t) 22 && forallb isAlnum t then Some t else None
  end.

(** No code unit of [s] is a slash. *)
Definition noSlash (s : jsString) : bool :=
  forallb (fun c => negb (N.eqb c 47)) s.

(** [AppScreen] *)
Inductive AppScreen : Type :=
  | ScreenLanding
  | ScreenLoading
  | ScreenGame.

(** [LoadingStep] *)
Inductive LoadingStep : Type :=
  | StepSpotify
  | StepGemini
  | StepAssets
  | StepEngine.

(** The [useState] cells of [Index]. *)
Record AppState : Type := mkApp {
  screen : AppScreen;
  playlistId : jsString;
  appPlaylistName : string;
  gameConfig : option GameConfiguration;
  appScore : Z;
  loadingStep : LoadingStep
}.

(** The initial values of the [useState] calls. *)
Definition initialApp : AppState :=
  mkApp ScreenLanding [] "" None 0 StepSpotify.

(** What [supabase.functions.invoke] resolves to: [data] and [error]
    (its message), either of which may be absent. *)
Record InvokeResult (T : Type) : Type := mkInvoke {
  data : option T;
  error : option string
}.
Arguments mkInvoke {T} _ _.
Arguments data {T} _.
Arguments error {T} _.

(** What the handlers do besides setting state. *)
Inductive PageEffect : Type :=
  | Invoke (fn : string)
  | ToastError (message : string)
  | ConsoleError.

(** [a || b] on strings: the empty string is falsy. *)
Definition orString (a b : string) : string :=
  if String.eqb a "" then b else a.

(** [error?.message || fallback] for an error that is present or not. *)
Definition messageOr (e : option string) (fallback : string) : string :=
  match e with
  | Some m => orString m fallback
  | None => fallback
  end.

(** [config.metrics = metrics] *)
Definition attachMetrics (config : GameConfiguration) (m : PlaylistMetrics)
  : GameConfiguration :=
  mkConfig (gameType config) (title config) (description config)
    (gravity config) (playerSpeed config) (spawnRateMs config)
    (difficulty config) (colorPalette config) (enemyTypes config)
    (backgroundTheme config) (musicInfluence config) (Some m).

(** The [catch] block of [handleGenerate]. *)
Definition failGenerate (st : AppState) (done : list PageEffect) (message : string)
  : AppState * list PageEffect :=
  (mkApp ScreenLanding (playlistId st) (appPlaylistName st) (gameConfig st)
     (appScore st) (loadingStep st),
   done ++ [ConsoleError;
            ToastError (orString message "Something went wrong. Please try again.")]).

(** [handleGenerate(url)] run to completion. The two backend functions
    are given by what they resolve to: [analyze] for a playlist id,
    [generate] for a playlist name and its metrics. The result is the
    state after the last setter and the effects in order. *)
Definition handleGenerate
    (analyze : jsString -> InvokeResult PlaylistMetrics)
    (generate : string -> PlaylistMetrics -> InvokeResult GameConfiguration)
    (url : jsString) (st : AppState) : AppState * list PageEffect :=
  match extractPlaylistId url with
  | None =>
      (st, [ToastError "Invalid Spotify playlist URL. Please paste a valid link."])
  | Some id =>
      let st1 := mkApp ScreenLoading id (appPlaylistName st) (gameConfig st)
                   (appScore st) StepSpotify in
      let r1 := analyze id in
      let done1 := [Invoke "spotify-analyze"] in
      match error r1, data r1 with
      | None, Some m =>
          let st2 := mkApp (screen st1) (playlistId st1)
                       (orString (playlistName m) "My Playlist")
                       (gameConfig st1) (appScore st1) StepGemini in
          let r2 := generate (playlistName m) m in
          let done2 := done1 ++ [Invoke "gemini-generate"] in
          match error r2, data r2 with
          | None, Some cfg =>
              let config := attachMetrics cfg m in
              (mkApp ScreenGame (playlistId st2)
                 (orString (title config) (playlistName m))
                 (Some config) (appScore st2) StepEngine,
               done2)
          | e, _ => failGenerate st2 done2 (messageOr e "Failed to generate game")
          end
      | e, _ => failGenerate st1 done1 (messageOr e "Failed to analyze playlist")
      end
  end.

(** [handleRestart] *)
Definition handleRestart (st : AppState) : AppState :=
  mkApp ScreenLanding [] "" None 0 (loadingStep st).

(** What [Index] renders. *)
Inductive View : Type :=
  | LandingScreen
  | LoadingScreen (step : LoadingStep) (name : string)
  | GameScreen (config : GameConfiguration) (name : string)
      (id : jsString) (score : Z).

Definition render (st : AppState) : View :=
  match screen st with
  | ScreenLoading =>
      LoadingScreen (loadingStep st) (orString (appPlaylistName st) "Analyzing...")
  | ScreenGame =>
      match gameConfig st with
      | Some config =>
          GameScreen config (appPlaylistName st) (playlistId st) (appScore st)
      | None => LandingScreen
      end
  | ScreenLanding => LandingScreen
  end.

End Index.

(* ================================================================= *)
(** * More of JavaScript's numbers *)

Module JSMath.

(** [ToInt32]: the integer wrapped into [-2^31, 2^31). *)
Definition toInt32 (z : Z) : Z :=
  ((z + 2147483648) mod 4294967296 - 2147483648)%Z.

(** The number with the value of a small non-negative integer (exact
    below 2^53). *)
Definition ofZ (z : Z) : JS.number :=
  PrimFloat.of_uint63 (Uint63.of_Z z).

(** [Math.round(x)]: the integer nearest to [x], ties towards +Infinity;
    integers, infinities and NaN are returned as they are, and a result
    of zero keeps the sign of [x]. The value of a finite number is
    [±m * 2^e]; for [e < 0] the nearest integer is
    [floor((±m + 2^(-e-1)) / 2^(-e))], computed exactly. *)
Definition Math_round (x : JS.number) : JS.number :=
  match Prim2SF x with
  | S754_finite s m e =>
      if (0 <=? e)%Z then x
      else
        let sm := if s then Z.neg m else Z.pos m in
        let n := Z.shiftr (sm + 2 ^ (- e - 1)) (- e) in
        if (n =? 0)%Z then (if s then (-0)%float else 0%float)
        else SF2Prim (binary_normalize prec emax n 0 false)
  | _ => x
  end.

(** Both bounds of a closed interval, by [<=] on numbers. *)
Definition within (lo hi x : JS.number) : bool :=
  PrimFloat.leb lo x && PrimFloat.leb x hi.
Arguments within (lo hi x)%_float_scope.

End JSMath.

(* ================================================================= *)
(** * src/supabase/functions/spotify-analyze/index.ts *)

Module SpotifyAnalyze.

(** One round of the loop of [generateFallbackMetrics]:
    [hash = ((hash << 5) - hash) + playlistId.charCodeAt(i); hash |= 0;]
    [hash] is an int32 when the round starts. *)
Definition hashStep (hash : Z) (c : N) : Z :=
  JSMath.toInt32 (JSMath.toInt32 (hash * 32) - hash + Z.of_N c).

Definition hashOf (playlistId : Index.jsString) : Z :=
  fold_left hashStep playlistId 0%Z.

(** [const seed = Math.abs(hash);] *)
Definition seedOf (playlistId : Index.jsString) : Z :=
  Z.abs (hashOf playlistId).

(** The record [generateFallbackMetrics] returns, from its seed. *)
Definition metricsOfSeed (seed : Z) : PlaylistMetrics :=
  mkMetrics
    "Spotify Playlist"
    ""
    (20 + JSMath.ofZ (Z.rem seed 30))%float
    (JSMath.Math_round (90 + JSMath.ofZ (Z.rem seed 80))%float)
    (JSMath.Math_round ((JSMath.ofZ (Z.rem seed 80) / 100 + 0.2) * 100) / 100)%float
    (JSMath.Math_round ((JSMath.ofZ (Z.rem seed 70) / 100 + 0.15) * 100) / 100)%float
    (JSMath.Math_round ((JSMath.ofZ (Z.rem seed 60) / 100 + 0.1) * 100) / 100)%float
    (JSMath.Math_round ((JSMath.ofZ (Z.rem seed 75) / 100 + 0.2) * 100) / 100)%float
    (JSMath.Math_round ((-12 + JSMath.ofZ (Z.rem seed 8)) * 10) / 10)%float.

Definition generateFallbackMetrics (playlistId : Index.jsString) : PlaylistMetrics :=
  metricsOfSeed (seedOf playlistId).


(** ** Estimation from track metadata

    What the handler computes from the fetched tracks and the artists'
    genre tags, from "Compute metrics from track metadata" on. *)

(** One track of the playlist response, as far as it is read:
    [popularity], [duration_ms] (either may be missing) and the truthiness
    of [explicit]. *)
Record Track : Type := mkTrack {
  popularity : option JS.number;
  duration_ms : option JS.number;
  explicit : bool
}.

(** The results of the seven [RegExp.test] calls on the lower-cased genre
    string. *)
Record GenreFlags : Type := mkFlags {
  isElectronic : bool;
  isAcoustic : bool;
  isHiphop : bool;
  isRock : bool;
  isPop : bool;
  isClassical : bool;
  isLatin : bool
}.

(** [tracks.reduce((s, t) => s + (t.field || d), 0) / tracks.length] *)
Definition average (field : Track -> option JS.number) (d : JS.number)
    (tracks : list Track) : JS.number :=
  (fold_left (fun s t => s + JS.or_else (field t) d) tracks 0
   / JSMath.ofZ (Z.of_nat (List.length tracks)))%float.

Definition avgPopOf (tracks : list Track) : JS.number :=
  average popularity 50%float tracks.

Definition avgDurOf (tracks : list Track) : JS.number :=
  average duration_ms 200000%float tracks.

(** [tracks.filter(t => t.explicit).length / tracks.length] *)
Definition explicitRatioOf (tracks : list Track) : JS.number :=
  (JSMath.ofZ (Z.of_nat (List.length (filter explicit tracks)))
   / JSMath.ofZ (Z.of_nat (List.length tracks)))%float.

Section Estimates.
Variables (avgPop avgDur explicitRatio : JS.number) (g : GenreFlags).

Definition tempoEst : JS.number :=
  let t0 := (80 + (300000 - JS.Math_min avgDur 300000) / 300000 * 80)%float in
  let t1 := if isElectronic g then (t0 + 15)%float else t0 in
  let t2 := if isHiphop g then JS.Math_max t1 90%float else t1 in
  let t3 := if isLatin g then (t2 + 10)%float else t2 in
  if isClassical g then (t3 - 20)%float else t3.

Definition energyEst : JS.number :=
  let e0 := (avgPop / 100 * 0.6 + 0.2)%float in
  let e1 := if isElectronic g || isRock g then (e0 + 0.15)%float else e0 in
  let e2 := if PrimFloat.ltb 0.5 explicitRatio then (e1 + 0.1)%float else e1 in
  if isClassical g || isAcoustic g then (e2 - 0.15)%float else e2.

Definition valenceEst : JS.number :=
  let v0 := (avgPop / 100 * 0.5 + 0.25)%float in
  let v1 := if isPop g || isLatin g then (v0 + 0.1)%float else v0 in
  if isRock g && PrimFloat.ltb 0.3 explicitRatio then (v1 - 0.1)%float else v1.

Definition acousticnessEst : JS.number :=
  let a0 := if isAcoustic g then 0.7%float
            else if isElectronic g then 0.1%float
            else ((1 - avgPop / 100) * 0.4 + 0.1)%float in
  if isClassical g then JS.Math_max a0 0.6%float else a0.

Definition danceabilityEst : JS.number :=
  let d0 := (avgPop / 100 * 0.5 + 0.25)%float in
  let d1 := if isElectronic g || isLatin g || isHiphop g
            then (d0 + 0.15)%float else d0 in
  if isClassical g || isAcoustic g then (d1 - 0.15)%float else d1.

Definition loudnessEst : JS.number := (-12 + energyEst * 8)%float.

End Estimates.

(** [const clamp01 = (v) => Math.round(Math.max(0, Math.min(1, v)) * 100) / 100;] *)
Definition clamp01 (v : JS.number) : JS.number :=
  (JSMath.Math_round (JS.Math_max 0 (JS.Math_min 1 v) * 100) / 100)%float.

(** The metrics of the response when at least one track was fetched. *)
Definition estimateMetrics (playlistName playlistImage : string)
    (trackCount : JS.number) (tracks : list Track) (g : GenreFlags)
    : PlaylistMetrics :=
  let avgPop := avgPopOf tracks in
  let avgDur := avgDurOf tracks in
  let explicitRatio := explicitRatioOf tracks in
  mkMetrics playlistName playlistImage trackCount
    (JSMath.Math_round
       (JS.Math_max 60%float (JS.Math_min 200%float (tempoEst avgDur g))))
    (clamp01 (energyEst avgPop explicitRatio g))
    (clamp01 (valenceEst avgPop explicitRatio g))
    (clamp01 (acousticnessEst avgPop g))
    (clamp01 (danceabilityEst avgPop g))
    (JSMath.Math_round (loudnessEst avgPop explicitRatio g * 10) / 10)%float.


(** A value of the Spotify response that is missing, NaN or not below
    zero (popularity is documented as 0 to 100, a duration as a length in
    milliseconds). *)
Definition nonNegative (v : option JS.number) : bool :=
  match v with
  | Some p => negb (PrimFloat.ltb p 0)
  | None => true
  end.

Definition trackOk (t : Track) : bool :=
  nonNegative (popularity t) && nonNegative (duration_ms t).

(** What the handler got from Spotify: no token; a token but no playlist
    (the response was not ok or the fetch threw); or the playlist, with
    its name, first image, [tracks.total], the non-null tracks of
    [tracks.items] and the genre tests of their artists. *)
Inductive Fetched : Type :=
  | TokenFailed
  | PlaylistFailed
  | PlaylistOk (name image : string) (total : option JS.number)
      (items : list Track) (g : GenreFlags).

(** [fallback.playlistName = playlistName; fallback.playlistImage = ...;
    fallback.trackCount = trackCount;] *)
Definition withHeader (playlistName playlistImage : string)
    (trackCount : JS.number) (fallback : PlaylistMetrics) : PlaylistMetrics :=
  mkMetrics playlistName playlistImage trackCount
    (avgTempo fallback) (avgEnergy fallback) (avgValence fallback)
    (avgAcousticness fallback) (avgDanceability fallback)
    (avgLoudness fallback).

(** The body of the handler passed to [serve], for a POST request: the
    metrics of its response. [playlistId] is the field of the request
    body, [None] when the body has none (or is not JSON); an empty
    identifier is falsy as well. Every path answers with metrics. *)
Definition handler (playlistId : option Index.jsString) (world : Fetched)
    : PlaylistMetrics :=
  match playlistId with
  | None | Some [] => generateFallbackMetrics (Index.lit "default")
  | Some id =>
      match world with
      | TokenFailed => generateFallbackMetrics id
      | PlaylistFailed =>
          withHeader "Spotify Playlist" "" 20%float (generateFallbackMetrics id)
      | PlaylistOk name image total items g =>
          let playlistName := Index.orString name "Spotify Playlist" in
          let playlistImage := Index.orString image "" in
          let trackCount := JS.or_else total 20%float in
          let tracks := firstn 50 items in
          if (0 <? List.length tracks)%nat
          then estimateMetrics playlistName playlistImage trackCount tracks g
          else withHeader playlistName playlistImage trackCount
                 (generateFallbackMetrics id)
      end
  end.

(** The fetched tracks that are read carry no negative popularity or
    duration. *)
Definition worldOk (world : Fetched) : bool :=
  match world with
  | PlaylistOk _ _ _ items _ => forallb trackOk (firstn 50 items)
  | _ => true
  end.

End SpotifyAnalyze.

(* ================================================================= *)
(** * src/supabase/functions/gemini-generate/index.ts *)

Module GeminiGenerate.

(** The "Clamp values" block applied to the parsed tool-call arguments:
    [gameConfig.gravity = Math.max(0.5, Math.min(2.0, gameConfig.gravity));]
    and so on; [difficulty] goes through [|| 5] first. A field that is
    missing reads as [undefined], which [Math.min] turns into NaN and
    [||] into its right operand, as it does NaN itself. *)
Definition clampValues (gameConfig : GameConfiguration) : GameConfiguration :=
  mkConfig (gameType gameConfig) (title gameConfig) (description gameConfig)
    (JS.Math_max 0.5%float (JS.Math_min 2.0%float (gravity gameConfig)))
    (JS.Math_max 100%float (JS.Math_min 400%float (playerSpeed gameConfig)))
    (JS.Math_max 500%float (JS.Math_min 3000%float (spawnRateMs gameConfig)))
    (JS.Math_max 1%float
       (JS.Math_min 10%float
          (JS.or_else (Some (difficulty gameConfig)) 5%float)))
    (colorPalette gameConfig) (enemyTypes gameConfig)
    (backgroundTheme gameConfig) (musicInfluence gameConfig)
    (metrics gameConfig).

End GeminiGenerate.

(* ================================================================= *)
(** * Binary64 comparisons *)

Lemma SFcompare_antisym (a b : spec_float) :
  SFcompare b a = option_map CompOpp (SFcompare a b).
Proof.
  destruct a as [sa|sa| |sa ma ea], b as [sb|sb| |sb mb eb]; simpl;
    try reflexivity; try (destruct sa, sb; reflexivity);
    try (destruct sa; reflexivity); try (destruct sb; reflexivity).
  destruct sa, sb; simpl; try reflexivity;
    rewrite (Z.compare_antisym ea eb);
    destruct (Z.compare ea eb); simpl; try reflexivity;
    change Eq with (CompOpp Eq) at 1;
    rewrite <- (Pos.compare_cont_antisym ma mb Eq);
    now destruct (Pos.compare_cont Eq ma mb).
Qed.

Lemma SFcompare_refl (a : spec_float) :
  a <> S754_nan -> SFcompare a a = Some Eq.
Proof.
  destruct a as [s|s| |s m e]; simpl; try congruence; intros _.
  - now destruct s.
  - rewrite Z.compare_refl, Pos.compare_cont_refl. now destruct s.
Qed.

Lemma SFcompare_None (a b : spec_float) :
  SFcompare a b = None -> a = S754_nan \/ b = S754_nan.
Proof.
  destruct a as [sa|sa| |sa ma ea], b as [sb|sb| |sb mb eb]; simpl;
    try discriminate; auto.
Qed.

Lemma is_nan_Prim2SF (x : float) :
  PrimFloat.is_nan x = true <-> Prim2SF x = S754_nan.
Proof.
  unfold PrimFloat.is_nan. rewrite eqb_spec. unfold SFeqb.
  destruct (Prim2SF x) as [s|s| |s m e] eqn:E.
  - simpl; split; discriminate.
  - destruct s; simpl; split; discriminate.
  - simpl; split; reflexivity.
  - rewrite SFcompare_refl by discriminate. simpl; split; discriminate.
Qed.

Lemma is_nan_false (x : float) :
  PrimFloat.is_nan x = false <-> Prim2SF x <> S754_nan.
Proof.
  rewrite <- is_nan_Prim2SF. now destruct (PrimFloat.is_nan x).
Qed.

Lemma ltb_SFcompare (x y : float) :
  PrimFloat.ltb x y = true <->
  SFcompare (Prim2SF x) (Prim2SF y) = Some Lt.
Proof.
  rewrite ltb_spec. unfold SFltb.
  destruct (SFcompare (Prim2SF x) (Prim2SF y)) as [[| |]|];
    split; congruence.
Qed.

Lemma leb_SFcompare (x y : float) :
  PrimFloat.leb x y = true <->
  SFcompare (Prim2SF x) (Prim2SF y) = Some Lt \/
  SFcompare (Prim2SF x) (Prim2SF y) = Some Eq.
Proof.
  rewrite leb_spec. unfold SFleb.
  destruct (SFcompare (Prim2SF x) (Prim2SF y)) as [[| |]|];
    split; try tauto; try congruence; intros [?|?]; congruence.
Qed.

(** The three-way outcome of comparing two numbers that are not NaN. *)
Lemma float_compare_cases (x y : float) :
  PrimFloat.is_nan x = false -> PrimFloat.is_nan y = false ->
  (PrimFloat.ltb x y = true /\ PrimFloat.ltb y x = false /\
   PrimFloat.leb x y = true /\ PrimFloat.leb y x = false) \/
  (PrimFloat.ltb x y = false /\ PrimFloat.ltb y x = true /\
   PrimFloat.leb x y = false /\ PrimFloat.leb y x = true) \/
  (PrimFloat.ltb x y = false /\ PrimFloat.ltb y x = false /\
   PrimFloat.leb x y = true /\ PrimFloat.leb y x = true /\
   SFcompare (Prim2SF x) (Prim2SF y) = Some Eq).
Proof.
  intros Hx Hy. apply is_nan_false in Hx, Hy.
  rewrite !ltb_spec, !leb_spec. unfold SFltb, SFleb.
  rewrite (SFcompare_antisym (Prim2SF x) (Prim2SF y)).
  destruct (SFcompare (Prim2SF x) (Prim2SF y)) as [[| |]|] eqn:E; simpl.
  - right; right; repeat split.
  - left; repeat split.
  - right; left; repeat split.
  - apply SFcompare_None in E. tauto.
Qed.

Lemma float_leb_refl (x : float) :
  PrimFloat.is_nan x = false -> PrimFloat.leb x x = true.
Proof.
  intros Hx. apply leb_SFcompare. right.
  apply SFcompare_refl. now apply is_nan_false.
Qed.

(** [Math.min] of two numbers is one of them and is below both. *)
Lemma Math_min_spec (a b : float) :
  PrimFloat.is_nan a = false -> PrimFloat.is_nan b = false ->
  (JS.Math_min a b = a \/ JS.Math_min a b = b) /\
  PrimFloat.leb (JS.Math_min a b) a = true /\
  PrimFloat.leb (JS.Math_min a b) b = true.
Proof.
  intros Ha Hb. unfold JS.Math_min. rewrite Ha, Hb. simpl.
  pose proof (float_leb_refl a Ha). pose proof (float_leb_refl b Hb).
  destruct (float_compare_cases a b Ha Hb)
    as [(E1 & E2 & ? & ?)|[(E1 & E2 & ? & ?)|(E1 & E2 & ? & ? & _)]];
    rewrite E1, ?E2; try destruct (PrimFloat.get_sign a); auto.
Qed.

(** [Math.max] of two numbers is one of them and is above both. *)
Lemma Math_max_spec (a b : float) :
  PrimFloat.is_nan a = false -> PrimFloat.is_nan b = false ->
  (JS.Math_max a b = a \/ JS.Math_max a b = b) /\
  PrimFloat.leb a (JS.Math_max a b) = true /\
  PrimFloat.leb b (JS.Math_max a b) = true.
Proof.
  intros Ha Hb. unfold JS.Math_max. rewrite Ha, Hb. simpl.
  pose proof (float_leb_refl a Ha). pose proof (float_leb_refl b Hb).
  destruct (float_compare_cases a b Ha Hb)
    as [(E1 & E2 & ? & ?)|[(E1 & E2 & ? & ?)|(E1 & E2 & ? & ? & _)]];
    rewrite E1, ?E2; try destruct (PrimFloat.get_sign a); auto.
Qed.

(** Clamping a number that is not NaN lands in [400, 3000]. *)
Lemma clamped_in_range (x : float) :
  PrimFloat.is_nan x = false ->
  PrimFloat.leb 400%float (JS.Math_max 400%float (JS.Math_min 3000%float x)) = true /\
  PrimFloat.leb (JS.Math_max 400%float (JS.Math_min 3000%float x)) 3000%float = true.
Proof.
  intros Hx.
  destruct (Math_min_spec 3000%float x eq_refl Hx) as (Hmin & Hle & _).
  assert (Hn : PrimFloat.is_nan (JS.Math_min 3000%float x) = false)
    by (destruct Hmin as [-> | ->]; [reflexivity | exact Hx]).
  destruct (Math_max_spec 400%float (JS.Math_min 3000%float x) eq_refl Hn)
    as (Hmax & Hge & _).
  split; [exact Hge|].
  destruct Hmax as [-> | ->]; [reflexivity | exact Hle].
Qed.

(* ================================================================= *)
(** * Rounding to binary64 *)

(** The specification of binary64 is written with the integer operations
    of the core library; this restates them as those of [ZArith]. *)
Ltac std_Z :=
  change IntDef.Z.max with Z.max in *;
  change IntDef.Z.min with Z.min in *;
  change IntDef.Z.add with Z.add in *;
  change IntDef.Z.sub with Z.sub in *;
  change IntDef.Z.mul with Z.mul in *;
  change IntDef.Z.opp with Z.opp in *;
  change IntDef.Z.leb with Z.leb in *;
  change IntDef.Z.eqb with Z.eqb in *;
  change IntDef.Z.compare with Z.compare in *;
  change IntDef.Z.shiftl with Z.shiftl in *;
  change IntDef.Z.div_eucl with Z.div_eucl in *;
  change IntDef.Z.even with Z.even in *;
  change PosDef.Pos.mul with Pos.mul in *;
  change PosDef.Pos.compare_cont with Pos.compare_cont in *;
  change @PosDef.Pos.iter with @Pos.iter in *.

Section Rounding.
Local Open Scope Z_scope.

Lemma digits2_pos_size (p : positive) : digits2_pos p = Pos.size p.
Proof. induction p; simpl; congruence. Qed.

Lemma Zdigits2_log2 (m : Z) : 0 < m -> Zdigits2 m = Z.log2 m + 1.
Proof.
  destruct m as [|p|p]; try lia. intros _. simpl.
  rewrite digits2_pos_size. destruct p; simpl; lia.
Qed.

Lemma shr_1_m (mrs : shr_record) :
  0 <= shr_m mrs -> shr_m (shr_1 mrs) = shr_m mrs / 2.
Proof.
  destruct mrs as [m r s]; simpl. intros Hm.
  rewrite <- Z.div2_div.
  destruct m as [|[p|p|]|p]; simpl; try reflexivity; lia.
Qed.

Lemma pow2_xO (p : positive) : 2 ^ Z.pos p~0 = 2 ^ Z.pos p * 2 ^ Z.pos p.
Proof. rewrite <- Z.pow_add_r by lia. f_equal; lia. Qed.

Lemma pow2_xI (p : positive) : 2 ^ Z.pos p~1 = 2 * (2 ^ Z.pos p * 2 ^ Z.pos p).
Proof.
  rewrite <- Z.pow_add_r by lia. rewrite <- (Z.pow_succ_r 2) by lia.
  f_equal; lia.
Qed.

Lemma iter_shr_1_m (p : positive) (mrs : shr_record) :
  0 <= shr_m mrs ->
  shr_m (iter_pos shr_1 p mrs) = shr_m mrs / 2 ^ Z.pos p.
Proof.
  revert mrs. induction p as [p IH|p IH|]; intros mrs Hm; simpl iter_pos.
  - assert (Ha : 0 < 2 ^ Z.pos p) by (apply Z.pow_pos_nonneg; lia).
    assert (H1 : 0 <= shr_m (shr_1 mrs))
      by (rewrite shr_1_m by lia; apply Z.div_pos; lia).
    assert (H2 : 0 <= shr_m (iter_pos shr_1 p (shr_1 mrs)))
      by (rewrite IH by lia; apply Z.div_pos; lia).
    rewrite IH, IH, shr_1_m by lia.
    rewrite !Z.div_div by lia. now rewrite pow2_xI, Z.mul_assoc.
  - assert (Ha : 0 < 2 ^ Z.pos p) by (apply Z.pow_pos_nonneg; lia).
    assert (H2 : 0 <= shr_m (iter_pos shr_1 p mrs))
      by (rewrite IH by lia; apply Z.div_pos; lia).
    rewrite IH, IH by lia. rewrite Z.div_div by lia. now rewrite pow2_xO.
  - now rewrite shr_1_m, Z.pow_1_r.
Qed.

(** [shr_fexp] on a non-negative mantissa keeps it non-negative. *)
Lemma shr_fexp_nonneg (m e : Z) (l : location) :
  0 <= m -> 0 <= shr_m (fst (shr_fexp prec emax m e l)).
Proof.
  intros Hm. unfold shr_fexp, shr.
  assert (H0 : 0 <= shr_m (shr_record_of_loc m l))
    by (destruct l as [|[| |]]; simpl; lia).
  destruct (fexp prec emax (Zdigits2 m + e) - e) as [|n|n]; simpl;
    try exact H0.
  rewrite iter_shr_1_m by exact H0.
  apply Z.div_pos; [exact H0 | apply Z.pow_pos_nonneg; lia].
Qed.

Lemma round_nearest_even_nonneg (m : Z) (l : location) :
  0 <= m -> 0 <= round_nearest_even m l.
Proof.
  intros Hm. destruct l as [|[| |]]; simpl; try lia.
  destruct (Z.even m); lia.
Qed.

(** Rounding a non-negative mantissa gives a zero, a finite number or an
    infinity of the requested sign, never NaN. *)
Lemma binary_round_aux_signed (s : bool) (m e : Z) (l : location) :
  0 <= m ->
  binary_round_aux prec emax s m e l = S754_zero s \/
  binary_round_aux prec emax s m e l = S754_infinity s \/
  exists m' e', binary_round_aux prec emax s m e l = S754_finite s m' e'.
Proof.
  intros Hm. unfold binary_round_aux.
  pose proof (shr_fexp_nonneg m e l Hm) as H1.
  destruct (shr_fexp prec emax m e l) as [mrs' e']. simpl in H1.
  pose proof (shr_fexp_nonneg _ e' loc_Exact
                (round_nearest_even_nonneg _ (loc_of_shr_record mrs') H1)) as H2.
  destruct (shr_fexp prec emax _ e' loc_Exact) as [mrs'' e'']. simpl in H2.
  destruct (shr_m mrs'') as [|p|p]; [auto | | lia].
  destruct (e'' <=? emax - prec); eauto.
Qed.

Lemma round_nearest_even_bounds (m : Z) (l : location) :
  m <= round_nearest_even m l <= m + 1.
Proof.
  destruct l as [|[| |]]; simpl; try lia. destruct (Z.even m); lia.
Qed.

(** [shr_fexp] on a positive mantissa whose exponent is not below [emin]:
    the mantissa stays positive and the value keeps its magnitude. *)
Lemma shr_fexp_pos (m e : Z) (l : location) :
  0 < m -> emin <= e ->
  let mrs := fst (shr_fexp prec emax m e l) in
  let e' := snd (shr_fexp prec emax m e l) in
  0 < shr_m mrs /\
  e' = Z.max e (Zdigits2 m + e - prec) /\
  Zdigits2 (shr_m mrs) + e' = Zdigits2 m + e.
Proof.
  intros Hm He. unfold shr_fexp, shr, fexp.
  rewrite (Zdigits2_log2 m Hm).
  assert (H0 : shr_m (shr_record_of_loc m l) = m)
    by (destruct l as [|[| |]]; reflexivity).
  pose proof (Z.log2_nonneg m) as Hlog.
  unfold SpecFloat.emin, emax, prec in *. std_Z.
  destruct (Z.max (Z.log2 m + 1 + e - 53) (3 - 1024 - 53) - e)
    as [|n|n] eqn:En; simpl; rewrite ?H0.
  - rewrite (Zdigits2_log2 m Hm). lia.
  - rewrite iter_shr_1_m by lia. rewrite H0.
    assert (Hn : Z.pos n = Z.log2 m - 52) by lia.
    assert (Hpow : 2 ^ Z.pos n <= m).
    { apply Z.le_trans with (2 ^ Z.log2 m).
      - apply Z.pow_le_mono_r; lia.
      - apply Z.log2_spec; lia. }
    assert (Hq : 0 < m / 2 ^ Z.pos n).
    { apply Z.div_str_pos. split; [apply Z.pow_pos_nonneg; lia | exact Hpow]. }
    rewrite (Zdigits2_log2 _ Hq).
    split; [exact Hq|].
    rewrite <- Z.shiftr_div_pow2 by lia.
    rewrite Z.log2_shiftr by lia. lia.
  - rewrite (Zdigits2_log2 m Hm). lia.
Qed.

(** A positive mantissa in the exponent range rounds to a finite
    number. *)
Lemma binary_round_aux_finite (s : bool) (m e : Z) (l : location) :
  0 < m -> emin <= e <= emax - prec -> Zdigits2 m + e <= emax - 1 ->
  exists m' e', binary_round_aux prec emax s m e l = S754_finite s m' e'.
Proof.
  intros Hm He Hd. unfold binary_round_aux.
  pose proof (shr_fexp_pos m e l Hm (proj1 He)) as (H1 & H2 & H3).
  destruct (shr_fexp prec emax m e l) as [mrs' e']. simpl in H1, H2, H3.
  pose proof (round_nearest_even_bounds (shr_m mrs') (loc_of_shr_record mrs'))
    as Hr.
  set (m2 := round_nearest_even (shr_m mrs') (loc_of_shr_record mrs')) in *.
  assert (Hm2 : 0 < m2) by lia.
  assert (He' : emin <= e') by lia.
  pose proof (shr_fexp_pos m2 e' loc_Exact Hm2 He') as (H4 & H5 & _).
  destruct (shr_fexp prec emax m2 e' loc_Exact) as [mrs'' e''].
  simpl in H4, H5.
  assert (Hd2 : Zdigits2 m2 <= Zdigits2 (shr_m mrs') + 1).
  { rewrite (Zdigits2_log2 _ Hm2), (Zdigits2_log2 _ H1).
    pose proof (Z.log2_le_mono m2 (Z.succ (shr_m mrs')) ltac:(lia)).
    pose proof (Z.log2_succ_le (shr_m mrs')). lia. }
  unfold SpecFloat.emin, emax, prec in *. std_Z.
  destruct (shr_m mrs'') as [|p|p]; try lia.
  assert (Hle : (e'' <=? 1024 - 53) = true) by (apply Z.leb_le; lia).
  rewrite Hle. eauto.
Qed.

Lemma Pos_iter_xO (m d : positive) :
  Z.pos (Pos.iter xO m d) = Z.pos m * 2 ^ Z.pos d.
Proof.
  induction d as [|d IH] using Pos.peano_ind.
  - simpl. lia.
  - rewrite Pos.iter_succ, Pos2Z.inj_xO, IH, Pos2Z.inj_succ, Z.pow_succ_r by lia.
    lia.
Qed.

(** Aligning a mantissa to a lower exponent multiplies it by the power of
    two in between. *)
Lemma shl_align_fst (mx : positive) (ex ex' : Z) :
  ex' <= ex -> Z.pos (fst (shl_align mx ex ex')) = Z.pos mx * 2 ^ (ex - ex').
Proof.
  intros Hle. unfold shl_align. std_Z.
  destruct (ex' - ex) as [|d|d] eqn:Ed; try lia; cbn [fst].
  - replace (ex - ex') with 0 by lia. rewrite Z.pow_0_r. lia.
  - rewrite Pos_iter_xO. replace (ex - ex') with (Z.pos d) by lia.
    reflexivity.
Qed.

Lemma shl_align_snd (mx : positive) (ex ex' : Z) :
  snd (shl_align mx ex ex') = Z.min ex ex'.
Proof.
  unfold shl_align. std_Z.
  destruct (ex' - ex) as [|d|d] eqn:Ed; simpl; lia.
Qed.

Lemma shl_align_fst_up (mx : positive) (ex ex' : Z) :
  ex <= ex' -> fst (shl_align mx ex ex') = mx.
Proof.
  intros Hle. unfold shl_align. std_Z.
  destruct (ex' - ex) as [|d|d] eqn:Ed; simpl; try reflexivity; lia.
Qed.

(** A positive mantissa in the exponent range normalizes to a finite
    number. *)
Lemma binary_round_finite (s : bool) (d : positive) (e : Z) :
  emin <= e <= emax - prec -> Zdigits2 (Z.pos d) + e <= emax - 1 ->
  exists m' e', binary_round prec emax s d e = S754_finite s m' e'.
Proof.
  intros He Hd. unfold binary_round.
  change (Z.pos (digits2_pos d)) with (Zdigits2 (Z.pos d)).
  set (fx := fexp prec emax (IntDef.Z.add (Zdigits2 (Z.pos d)) e)).
  assert (Hfx : emin <= fx) by (unfold fx, fexp; std_Z; lia).
  pose proof (shl_align_snd d e fx) as Hsnd.
  destruct (Z.le_gt_cases e fx) as [Hup|Hdown].
  - pose proof (shl_align_fst_up d e fx Hup) as Hfst.
    destruct (shl_align d e fx) as [mz ez]. cbn [fst snd] in Hsnd, Hfst.
    subst mz. apply binary_round_aux_finite; lia.
  - pose proof (shl_align_fst d e fx ltac:(lia)) as Hfst.
    destruct (shl_align d e fx) as [mz ez]. cbn [fst snd] in Hsnd, Hfst.
    apply binary_round_aux_finite; try lia.
    rewrite Zdigits2_log2 in * by lia. rewrite Hfst.
    rewrite Z.log2_mul_pow2 by lia. lia.
Qed.

(** A valid finite number has at most 53 mantissa bits and an exponent
    of at least [emin]. *)
Lemma valid_finite_bounds (s : bool) (m : positive) (e : Z) :
  valid_binary (S754_finite s m e) = true ->
  emin <= e <= emax - prec /\ Z.pos m < 2 ^ 53.
Proof.
  unfold SpecFloat.valid_binary, bounded, canonical_mantissa, fexp.
  intros H. apply andb_true_iff in H as [Hc Hb]. std_Z.
  apply Z.eqb_eq in Hc. apply Z.leb_le in Hb.
  change (Z.pos (digits2_pos m)) with (Zdigits2 (Z.pos m)) in Hc.
  rewrite Zdigits2_log2 in Hc by lia.
  split; [lia|].
  apply Z.log2_lt_pow2; [lia|].
  unfold prec in *. lia.
Qed.

(** Comparison of two finite numbers with the sign bit clear. *)
Lemma SFcompare_finite_le (m1 m2 : positive) (e1 e2 : Z) :
  SFcompare (S754_finite false m1 e1) (S754_finite false m2 e2) = Some Lt \/
  SFcompare (S754_finite false m1 e1) (S754_finite false m2 e2) = Some Eq ->
  e1 < e2 \/ (e1 = e2 /\ Z.pos m1 <= Z.pos m2).
Proof.
  simpl. std_Z. rewrite Pos.compare_cont_spec. simpl Pos.switch_Eq.
  destruct (Z.compare_spec e1 e2) as [He|He|He].
  - destruct (Pos.compare_spec m1 m2) as [Hm|Hm|Hm];
      intros [H|H]; try discriminate; right; split; try lia.
  - intros _. now left.
  - intros [H|H]; discriminate.
Qed.

(** [1.5 - energy] is a finite positive number for [energy] in [0, 1]. *)
Lemma energy_multiplier_finite (energy : float) :
  PrimFloat.leb 0%float energy = true ->
  PrimFloat.leb energy 1%float = true ->
  exists m e, Prim2SF (1.5 - energy)%float = S754_finite false m e.
Proof.
  intros H0 H1. apply leb_SFcompare in H0, H1.
  pose proof (Prim2SF_valid energy) as Hv.
  rewrite sub_spec. unfold SF64sub.
  change (Prim2SF 0%float) with (S754_zero false) in H0.
  change (Prim2SF 1%float) with (S754_finite false 4503599627370496 (-52)) in H1.
  change (Prim2SF 1.5%float) with (S754_finite false 6755399441055744 (-52)).
  destruct (Prim2SF energy) as [s|s| |s m e].
  - simpl. eauto.
  - destruct s; simpl in H0, H1; destruct H0, H1; discriminate.
  - simpl in H0. destruct H0; discriminate.
  - assert (s = false) as -> by (destruct s; simpl in H0; destruct H0; congruence).
    apply SFcompare_finite_le in H1.
    apply valid_finite_bounds in Hv as [He Hm].
    unfold SFsub, cond_Zopp. std_Z.
    assert (Hmin : Z.min (-52) e = e) by lia. rewrite Hmin.
    rewrite (shl_align_fst_up m e e) by lia.
    pose proof (shl_align_fst 6755399441055744 (-52) e ltac:(lia)) as Ha.
    set (a := fst (shl_align 6755399441055744 (-52) e)) in *.
    assert (Hlt : Z.pos m < Z.pos a).
    { rewrite Ha. destruct H1 as [Hlt|[-> Hle]].
      - assert (2 ^ 1 <= 2 ^ (-52 - e)) by (apply Z.pow_le_mono_r; lia).
        change (2 ^ 1) with 2 in *. change (2 ^ 53) with 9007199254740992 in Hm.
        nia.
      - change (-52 - -52) with 0. rewrite Z.pow_0_r. lia. }
    destruct (Z.pos a - Z.pos m) as [|d|d] eqn:Ed; try lia.
    unfold binary_normalize.
    apply binary_round_finite; [unfold emax, prec in *; lia|].
    assert (Hd : Z.pos d <= Z.pos a) by lia.
    rewrite Zdigits2_log2 by lia.
    pose proof (Z.log2_le_mono _ _ Hd) as Hlog.
    rewrite Ha, Z.log2_mul_pow2 in Hlog by lia.
    change (Z.log2 6755399441055744) with 52 in Hlog.
    unfold emax. lia.
Qed.

Lemma binary_round_aux_nonneg_spec (m e : Z) (l : location) :
  0 <= m -> nonneg_spec (binary_round_aux prec emax false m e l).
Proof.
  intros Hm. destruct (binary_round_aux_signed false m e l Hm)
    as [H|[H|(m' & e' & H)]]; rewrite H; unfold nonneg_spec; eauto.
Qed.

Lemma SFdiv_core_nonneg (m1 m2 : positive) (e1 e2 : Z) :
  0 <= fst (fst (SFdiv_core_binary prec emax (Z.pos m1) e1 (Z.pos m2) e2)).
Proof.
  unfold SFdiv_core_binary. std_Z.
  set (sh := e1 - e2 - _).
  set (m' := match sh with 0 => Z.pos m1 | Z.pos _ => Z.shiftl (Z.pos m1) sh
                          | Z.neg _ => 0 end).
  assert (Hm' : 0 <= m').
  { unfold m'. destruct sh; try lia. apply Z.shiftl_nonneg. lia. }
  pose proof (Z.div_pos m' (Z.pos m2) Hm' ltac:(lia)) as Hq.
  unfold Z.div in Hq. destruct (Z.div_eucl m' (Z.pos m2)) as [q r].
  exact Hq.
Qed.

(** [60000 / tempo] is zero, finite or infinite with the sign bit clear
    whenever [tempo > 0]. *)
Lemma beat_nonneg (tempo : float) :
  PrimFloat.ltb 0%float tempo = true ->
  nonneg_spec (Prim2SF (60000 / tempo)%float).
Proof.
  intros H0. apply ltb_SFcompare in H0.
  rewrite div_spec. unfold SF64div.
  change (Prim2SF 0%float) with (S754_zero false) in H0.
  change (Prim2SF 60000%float) with (S754_finite false 8246337208320000 (-37)).
  destruct (Prim2SF tempo) as [s|s| |s m e]; simpl in H0; try discriminate.
  - destruct s; try discriminate. left. reflexivity.
  - destruct s; try discriminate. unfold SFdiv.
    pose proof (SFdiv_core_nonneg 8246337208320000 m (-37) e) as Hq.
    destruct (SFdiv_core_binary prec emax _ (-37) (Z.pos m) e) as [[mz ez] lz].
    simpl in Hq. simpl xorb. now apply binary_round_aux_nonneg_spec.
Qed.

(** The product of a non-negative number and a finite positive one is
    not NaN. *)
Lemma SFmul_not_nan (x : spec_float) (m : positive) (e : Z) :
  nonneg_spec x ->
  SFmul prec emax x (S754_finite false m e) <> S754_nan.
Proof.
  intros [->|[->|(mx & ex & ->)]]; simpl; try discriminate.
  destruct (binary_round_aux_signed false (Z.pos (mx * m)) (ex + e) loc_Exact)
    as [H|[H|(m' & e' & H)]]; try lia; std_Z; rewrite H; discriminate.
Qed.

(** The raw spawn interval is a number whenever the tempo is positive and
    the energy lies in [0, 1]. *)
Lemma raw_interval_not_nan (tempo energy : float) :
  PrimFloat.ltb 0%float tempo = true ->
  PrimFloat.leb 0%float energy = true ->
  PrimFloat.leb energy 1%float = true ->
  PrimFloat.is_nan (60000 / tempo * (1.5 - energy))%float = false.
Proof.
  intros Ht He0 He1. apply is_nan_false.
  rewrite mul_spec. unfold SF64mul.
  destruct (energy_multiplier_finite energy He0 He1) as (m & e & ->).
  apply SFmul_not_nan, beat_nonneg, Ht.
Qed.

End Rounding.

(* ================================================================= *)
(** * Clamping *)

Lemma is_nan_eq (x : float) : PrimFloat.is_nan x = true -> x = PrimFloat.nan.
Proof.
  intros Hx. apply is_nan_Prim2SF in Hx. apply Prim2SF_inj.
  now rewrite Hx.
Qed.

(** Only a number itself compares equal to a finite number. *)
Lemma SFcompare_Eq_finite (x : spec_float) (s : bool) (m : positive) (e : Z) :
  SFcompare x (S754_finite s m e) = Some Eq -> x = S754_finite s m e.
Proof.
  destruct x as [sx|sx| |sx mx ex]; simpl;
    try (destruct s; discriminate); try (destruct sx; discriminate).
  std_Z. rewrite Pos.compare_cont_spec. simpl Pos.switch_Eq.
  destruct sx, s; try discriminate;
    destruct (Z.compare_spec ex e) as [He|He|He]; try discriminate;
    destruct (Pos.compare_spec mx m) as [Hm|Hm|Hm]; try discriminate;
    intros _; congruence.
Qed.

Lemma float_eq_finite (x y : float) (s : bool) (m : positive) (e : Z) :
  Prim2SF y = S754_finite s m e ->
  SFcompare (Prim2SF x) (Prim2SF y) = Some Eq -> x = y.
Proof.
  intros Hy Heq. rewrite Hy in Heq. apply SFcompare_Eq_finite in Heq.
  apply Prim2SF_inj. congruence.
Qed.

(** Below 400 is below 3000, and above 3000 is above 400. *)
Lemma below_400_below_3000 (x : float) :
  PrimFloat.ltb x 400%float = true -> PrimFloat.ltb x 3000%float = true.
Proof.
  rewrite !ltb_SFcompare.
  change (Prim2SF 400%float) with (S754_finite false 7036874417766400 (-44)).
  change (Prim2SF 3000%float) with (S754_finite false 6597069766656000 (-41)).
  destruct (Prim2SF x) as [sx|sx| |sx mx ex]; cbn [SFcompare];
    try congruence.
  std_Z. destruct sx; try congruence.
  destruct (Z.compare_spec ex (-44)) as [He|He|He]; try discriminate;
    destruct (Z.compare_spec ex (-41)) as [He'|He'|He']; try lia; congruence.
Qed.

Lemma above_3000_above_400 (x : float) :
  PrimFloat.ltb 3000%float x = true -> PrimFloat.ltb 400%float x = true.
Proof.
  rewrite !ltb_SFcompare.
  change (Prim2SF 400%float) with (S754_finite false 7036874417766400 (-44)).
  change (Prim2SF 3000%float) with (S754_finite false 6597069766656000 (-41)).
  destruct (Prim2SF x) as [sx|sx| |sx mx ex]; cbn [SFcompare];
    try congruence.
  std_Z. destruct sx; try congruence.
  destruct (Z.compare_spec (-41) ex) as [He|He|He]; try discriminate;
    destruct (Z.compare_spec (-44) ex) as [He'|He'|He']; try lia; congruence.
Qed.

(** The nested [Math.max(400, Math.min(3000, x))] of the source is the
    spec's [clamp(x, 400, 3000)], for every number and for NaN. *)
Lemma max_min_is_clamp (x : float) :
  JS.Math_max 400%float (JS.Math_min 3000%float x) = clamp x 400%float 3000%float.
Proof.
  destruct (PrimFloat.is_nan x) eqn:Hx.
  - apply is_nan_eq in Hx. subst x. reflexivity.
  - unfold clamp, JS.Math_min, JS.Math_max. rewrite Hx.
    change (PrimFloat.is_nan 3000%float) with false.
    change (PrimFloat.is_nan 400%float) with false.
    change (PrimFloat.get_sign 3000%float) with false.
    change (PrimFloat.get_sign 400%float) with false.
    cbn [orb].
    destruct (PrimFloat.ltb x 400%float) eqn:Hlo.
    + rewrite (below_400_below_3000 x Hlo).
      destruct (float_compare_cases x 3000%float Hx eq_refl)
        as [(E1 & E2 & _)|[(E1 & E2 & _)|(E1 & E2 & _)]];
        rewrite (below_400_below_3000 x Hlo) in E1; try discriminate.
      rewrite E2, Hx. cbn [orb]. rewrite Hlo.
      destruct (float_compare_cases x 400%float Hx eq_refl)
        as [(F1 & F2 & _)|[(F1 & F2 & _)|(F1 & F2 & _)]];
        try congruence.
      now rewrite F2.
    + destruct (PrimFloat.ltb 3000%float x) eqn:Hhi.
      * reflexivity.
      * assert (Hx400 : (if PrimFloat.ltb 400%float x then x else 400%float) = x).
        { destruct (float_compare_cases x 400%float Hx eq_refl)
            as [(F1 & F2 & _)|[(F1 & F2 & _)|(F1 & F2 & _ & _ & F3)]];
            try congruence; rewrite F2; [reflexivity|].
          symmetry.
          apply (float_eq_finite x 400%float false 7036874417766400 (-44));
            [reflexivity | exact F3]. }
        destruct (PrimFloat.ltb x 3000%float); rewrite Hx, Hlo; exact Hx400.
Qed.

(* ================================================================= *)
(** * Spawn interval (claim C4) *)

(** C4: [getMusicSpawnRate] returns [cfg.spawnRateMs] without metrics and
    [clamp((60000 / avgTempo) * (1.5 - avgEnergy), 400, 3000)] with
    metrics; for every tempo above 0 and every energy in [0, 1] the
    result lies in [400, 3000]. The numbers are binary64 values; infinite
    tempos and tempos so small that the beat overflows are covered. *)
Theorem getMusicSpawnRate_clamped (config : GameConfiguration) :
  (metrics config = None ->
   Engine.getMusicSpawnRate config = spawnRateMs config) /\
  (forall m, metrics config = Some m ->
     Engine.getMusicSpawnRate config =
       clamp (60000 / avgTempo m * (1.5 - avgEnergy m))%float
             400%float 3000%float /\
     (PrimFloat.ltb 0%float (avgTempo m) = true ->
      PrimFloat.leb 0%float (avgEnergy m) = true ->
      PrimFloat.leb (avgEnergy m) 1%float = true ->
      PrimFloat.leb 400%float (Engine.getMusicSpawnRate config) = true /\
      PrimFloat.leb (Engine.getMusicSpawnRate config) 3000%float = true)).
Proof.
  unfold Engine.getMusicSpawnRate. split.
  - now intros ->.
  - intros m ->. split.
    + apply max_min_is_clamp.
    + intros Ht He0 He1.
      apply clamped_in_range, raw_interval_not_nan; assumption.
Qed.

Lemma getMusicSpawnRate_clamped_witness :
  PrimFloat.leb 400%float (Engine.getMusicSpawnRate Samples.upbeat) = true /\
  PrimFloat.leb (Engine.getMusicSpawnRate Samples.upbeat) 3000%float = true.
Proof.
  apply (proj2 (getMusicSpawnRate_clamped Samples.upbeat)
           (Samples.metricsOf 140%float 0.8%float 0.2%float));
    reflexivity.
Defined.

(** The spec's example: at 140 BPM and energy 0.8 the beat is 428.57 ms,
    the raw interval just below 300 ms, and the result the floor 400. *)
Example getMusicSpawnRate_upbeat :
  (60000 / 140)%float = 428.57142857142856%float /\
  (60000 / 140 * (1.5 - 0.8))%float = 299.99999999999994%float /\
  Engine.getMusicSpawnRate Samples.upbeat = 400%float /\
  Engine.getMusicSpawnRate Samples.bare = 1200%float.
Proof. repeat split. Qed.

(** A tempo above 0 is truthy, so [getBpm] keeps it. *)
Lemma positive_is_truthy (t : float) :
  PrimFloat.ltb 0%float t = true -> JS.truthy t = true.
Proof.
  intros Ht. apply ltb_SFcompare in Ht. unfold JS.truthy.
  assert (Hn : PrimFloat.is_nan t = false).
  { apply is_nan_false. intros E. rewrite E in Ht.
    destruct (Prim2SF 0%float); discriminate. }
  rewrite Hn. unfold PrimFloat.is_zero. rewrite eqb_spec. unfold SFeqb.
  rewrite SFcompare_antisym. change PrimFloat.zero with 0%float.
  now rewrite Ht.
Qed.

(** The range of C4 holds for the other engine source as well. *)
Lemma AssetEngine_getMusicSpawnRate_in_range
    (config : GameConfiguration) (m : PlaylistMetrics) :
  metrics config = Some m ->
  PrimFloat.ltb 0%float (avgTempo m) = true ->
  PrimFloat.leb 0%float (avgEnergy m) = true ->
  PrimFloat.leb (avgEnergy m) 1%float = true ->
  PrimFloat.leb 400%float (AssetEngine.getMusicSpawnRate config) = true /\
  PrimFloat.leb (AssetEngine.getMusicSpawnRate config) 3000%float = true.
Proof.
  intros Hm Ht He0 He1.
  unfold AssetEngine.getMusicSpawnRate, AssetEngine.getBeatMs,
    AssetEngine.getBpm.
  rewrite Hm. cbn [option_map JS.or_else].
  rewrite (positive_is_truthy _ Ht).
  apply clamped_in_range, raw_interval_not_nan; assumption.
Qed.

(* ================================================================= *)
(** * Speed and gravity mapping (claims C5, C6) *)

(** C5: [getMusicSpeedMultiplier] is 1 without metrics and
    [(avgTempo / 120) * (0.7 + avgEnergy * 0.6)] with metrics; at 140 BPM
    and energy 0.8 this is the binary64 number 1.3766666666666667, which
    lies between 1.3765 and 1.3775. *)
Theorem getMusicSpeedMultiplier_formula (config : GameConfiguration) :
  (metrics config = None -> Engine.getMusicSpeedMultiplier config = 1%float) /\
  (forall m, metrics config = Some m ->
     Engine.getMusicSpeedMultiplier config =
       (avgTempo m / 120 * (0.7 + avgEnergy m * 0.6))%float /\
     (avgTempo m = 140%float -> avgEnergy m = 0.8%float ->
      Engine.getMusicSpeedMultiplier config = 1.3766666666666667%float /\
      PrimFloat.ltb 1.3765%float (Engine.getMusicSpeedMultiplier config) = true /\
      PrimFloat.ltb (Engine.getMusicSpeedMultiplier config) 1.3775%float = true)).
Proof.
  unfold Engine.getMusicSpeedMultiplier. split.
  - now intros ->.
  - intros m ->. split; [reflexivity|].
    intros -> ->. repeat split.
Qed.

Lemma getMusicSpeedMultiplier_formula_witness :
  Engine.getMusicSpeedMultiplier Samples.upbeat = 1.3766666666666667%float /\
  PrimFloat.ltb 1.3765%float (Engine.getMusicSpeedMultiplier Samples.upbeat) = true /\
  PrimFloat.ltb (Engine.getMusicSpeedMultiplier Samples.upbeat) 1.3775%float = true.
Proof.
  apply (proj2 (getMusicSpeedMultiplier_formula Samples.upbeat)
           (Samples.metricsOf 140%float 0.8%float 0.2%float));
    reflexivity.
Defined.

(** C6: [getMusicGravity] is [cfg.gravity] without metrics and
    [cfg.gravity * (1.2 - avgAcousticness * 0.7)] with metrics; with
    gravity 1.0 this is 1.06 at acousticness 0.2 and 0.5 at acousticness
    1.0. *)
Theorem getMusicGravity_formula (config : GameConfiguration) :
  (metrics config = None -> Engine.getMusicGravity config = gravity config) /\
  (forall m, metrics config = Some m ->
     Engine.getMusicGravity config =
       (gravity config * (1.2 - avgAcousticness m * 0.7))%float /\
     (gravity config = 1%float -> avgAcousticness m = 0.2%float ->
      Engine.getMusicGravity config = 1.06%float) /\
     (gravity config = 1%float -> avgAcousticness m = 1%float ->
      Engine.getMusicGravity config = 0.5%float)).
Proof.
  unfold Engine.getMusicGravity. split.
  - now intros ->.
  - intros m ->. split; [reflexivity|].
    split; intros -> ->; reflexivity.
Qed.

Lemma getMusicGravity_formula_witness :
  Engine.getMusicGravity Samples.upbeat = 1.06%float /\
  Engine.getMusicGravity Samples.acoustic = 0.5%float /\
  Engine.getMusicGravity Samples.bare = 1.3%float.
Proof.
  split; [|split].
  - apply (proj2 (getMusicGravity_formula Samples.upbeat)
             (Samples.metricsOf 140%float 0.8%float 0.2%float));
      reflexivity.
  - apply (proj2 (getMusicGravity_formula Samples.acoustic)
             (Samples.metricsOf 100%float 0.4%float 1%float));
      reflexivity.
  - apply (proj1 (getMusicGravity_formula Samples.bare)). reflexivity.
Defined.

(* ================================================================= *)
(** * The two engine sources (claim C8) *)

(** C8, as stated, fails: at a tempo of 0 the two [getMusicSpawnRate]
    differ. src/src/game/engine.ts divides by the tempo as it is (60000/0
    is Infinity, clamped to 3000); the other source takes the beat from
    [getBpm], which replaces a zero tempo by 120 (500 ms at energy 0.5). *)
Lemma spawn_rates_differ_at_zero_tempo :
  Engine.getMusicSpawnRate Samples.silent = 3000%float /\
  AssetEngine.getMusicSpawnRate Samples.silent = 500%float /\
  Engine.getMusicSpawnRate Samples.silent <>
  AssetEngine.getMusicSpawnRate Samples.silent.
Proof.
  repeat split. intros H.
  apply (f_equal (fun x => PrimFloat.ltb x 1000%float)) in H.
  discriminate H.
Qed.

(** C8, amended: the two engine sources compute the same speed multiplier
    and the same gravity for every configuration, and the same spawn rate
    when the metrics are absent or [avgTempo] is neither 0 nor NaN. *)
Theorem engines_agree (config : GameConfiguration) :
  Engine.getMusicSpeedMultiplier config =
    AssetEngine.getMusicSpeedMultiplier config /\
  Engine.getMusicGravity config = AssetEngine.getMusicGravity config /\
  (metrics config = None ->
   Engine.getMusicSpawnRate config = AssetEngine.getMusicSpawnRate config) /\
  (forall m, metrics config = Some m -> JS.truthy (avgTempo m) = true ->
   Engine.getMusicSpawnRate config = AssetEngine.getMusicSpawnRate config).
Proof.
  repeat split.
  - unfold Engine.getMusicSpawnRate, AssetEngine.getMusicSpawnRate.
    now intros ->.
  - intros m Hm Ht.
    unfold Engine.getMusicSpawnRate, AssetEngine.getMusicSpawnRate,
      AssetEngine.getBeatMs, AssetEngine.getBpm.
    rewrite Hm. simpl. now rewrite Ht.
Qed.

Lemma engines_agree_witness :
  Engine.getMusicSpawnRate Samples.upbeat =
  AssetEngine.getMusicSpawnRate Samples.upbeat.
Proof.
  apply (proj2 (proj2 (proj2 (engines_agree Samples.upbeat)))
           (Samples.metricsOf 140%float 0.8%float 0.2%float));
    reflexivity.
Defined.

(* ================================================================= *)
(** * Beat pulse (claim C9) *)

(** Two effects whose opacities compare differently against a threshold
    are different effects. *)
Lemma SetOpacity_neq (a b t : JS.number) :
  PrimFloat.ltb a t <> PrimFloat.ltb b t -> SetOpacity a <> SetOpacity b.
Proof. intros Hab Heq. injection Heq as ->. now apply Hab. Qed.

(** C9, as stated, fails. The pulse of src/src/game/engine.ts sets the
    opacity to the constant 0.08, not to [0.04 + avgEnergy * 0.06] (0.088
    at energy 0.8), and never shakes the camera. The pulse of the other
    engine source reads the energy as [avgEnergy || 0.5]: at energy 0 it
    sets the opacity to 0.07, not to 0.04. *)
Lemma beat_pulse_opacity_differs :
  hd_error (Engine.addBeatPulse Samples.upbeat) = Some (SetOpacity 0.08%float) /\
  SetOpacity 0.08%float <> SetOpacity (0.04 + 0.8 * 0.06)%float /\
  hd_error (snd (AssetEngine.addBeatPulse Samples.calm 0)) =
    Some (SetOpacity 0.07%float) /\
  SetOpacity 0.07%float <> SetOpacity (0.04 + 0 * 0.06)%float.
Proof.
  repeat split.
  - apply (SetOpacity_neq _ _ 0.085%float). discriminate.
  - apply (SetOpacity_neq _ _ 0.05%float). discriminate.
Qed.

Lemma beats_count (config : GameConfiguration) (n : nat) :
  fst (AssetEngine.beats config n) = n /\
  List.length (snd (AssetEngine.beats config n)) = n.
Proof.
  induction n as [|n [IHc IHl]]; [now split|].
  simpl. destruct (AssetEngine.beats config n) as [count fired].
  simpl in *. subst count. rewrite length_app, IHl. simpl. split; lia.
Qed.

Lemma beats_nth (config : GameConfiguration) (n k : nat) :
  k < n ->
  nth k (snd (AssetEngine.beats config n)) [] =
  snd (AssetEngine.addBeatPulse config k).
Proof.
  induction n as [|n IH]; intros Hk; [lia|].
  pose proof (beats_count config n) as [Hc Hl].
  simpl. destruct (AssetEngine.beats config n) as [count fired].
  simpl in *. subst count.
  destruct (Nat.eq_dec k n) as [->|Hne].
  - rewrite app_nth2 by lia. now rewrite Hl, Nat.sub_diag.
  - rewrite app_nth1 by lia. apply IH; lia.
Qed.

(** C9, amended: let [e] be [avgEnergy] when metrics are present and
    [avgEnergy] is neither 0 nor NaN, and 0.5 otherwise. In the engine
    source with the beat counter, the counter counts the firings, and the
    firing number [k+1] sets the opacity to [0.04 + e * 0.06], fades it to
    0 over 0.8 beat intervals and, when [k+1] is a multiple of 4 and
    [e > 0.5], shakes the camera by [(e - 0.5) * 6] for 0.3 beat
    intervals. The pulse of src/src/game/engine.ts sets the opacity to
    0.08 and fades it to 0 over 0.8 beat intervals, and does nothing
    else. *)
Theorem beat_pulse_effects (config : GameConfiguration) (n k : nat) :
  k < n ->
  let e := AssetEngine.pulseEnergy config in
  let beatMs := AssetEngine.getBeatMs config in
  (forall m, metrics config = Some m -> JS.truthy (avgEnergy m) = true ->
             e = avgEnergy m) /\
  (forall m, metrics config = Some m -> JS.truthy (avgEnergy m) = false ->
             e = 0.5%float) /\
  (metrics config = None -> e = 0.5%float) /\
  fst (AssetEngine.beats config n) = n /\
  nth k (snd (AssetEngine.beats config n)) [] =
    [SetOpacity (0.04 + e * 0.06)%float; Fade 0%float (beatMs * 0.8)%float] ++
    (if Nat.eqb (Nat.modulo (S k) 4) 0 && PrimFloat.ltb 0.5%float e
     then [Shake ((e - 0.5) * 6)%float ((e - 0.5) * 6)%float (beatMs * 0.3)%float]
     else []) /\
  Engine.addBeatPulse config =
    [SetOpacity 0.08%float; Fade 0%float (Engine.beatInterval config * 0.8)%float].
Proof.
  intros Hk e beatMs. subst e beatMs. unfold AssetEngine.pulseEnergy.
  repeat split.
  - intros m -> Ht. simpl. now rewrite Ht.
  - intros m -> Ht. simpl. now rewrite Ht.
  - now intros ->.
  - apply beats_count.
  - now rewrite beats_nth.
Qed.

Lemma beat_pulse_effects_witness :
  nth 3 (snd (AssetEngine.beats Samples.upbeat 4)) [] =
    [SetOpacity 0.088%float; Fade 0%float 342.85714285714289%float;
     Shake 1.8000000000000003%float 1.8000000000000003%float
       128.57142857142856%float].
Proof.
  apply (beat_pulse_effects Samples.upbeat 4 3). lia.
Defined.

(* ================================================================= *)
(** * Dispatch on the game type (claim C7) *)

(** C7: [createGame] sets up a controller for every game type: each of
    the four known types gets its own controller and any other string
    gets the platformer controller. *)
Theorem createGame_defaults_to_platformer (config : GameConfiguration) :
  (gameType config = "platformer"%string -> createGame config = Platformer) /\
  (gameType config = "dodge"%string -> createGame config = Dodge) /\
  (gameType config = "collector"%string -> createGame config = Collector) /\
  (gameType config = "runner"%string -> createGame config = Runner) /\
  (gameType config <> "platformer"%string ->
   gameType config <> "dodge"%string ->
   gameType config <> "collector"%string ->
   gameType config <> "runner"%string ->
   createGame config = Platformer).
Proof.
  unfold createGame.
  repeat split; try (intros ->; reflexivity).
  intros Hp Hd Hc Hr.
  apply String.eqb_neq in Hp, Hd, Hc, Hr.
  now rewrite Hp, Hd, Hc, Hr.
Qed.

Lemma createGame_defaults_to_platformer_witness :
  createGame Samples.shooter = Platformer.
Proof.
  apply (createGame_defaults_to_platformer Samples.shooter); discriminate.
Defined.

(* ================================================================= *)
(** * Session: callbacks of [addScore] and [gameOver] *)

Lemma gameOverCount_app (s : Session) (cs : list Callback) :
  List.length (filter isGameOver (calls s ++ cs)) =
  gameOverCount s + List.length (filter isGameOver cs).
Proof.
  unfold gameOverCount. now rewrite filter_app, length_app.
Qed.

Lemma gameOverCount_gameOver (s : Session) :
  gameOverCount (gameOver s) = S (gameOverCount s).
Proof.
  unfold gameOverCount at 1; simpl. rewrite gameOverCount_app; simpl. lia.
Qed.

Lemma gameOverCount_addScore (p : Z) (s : Session) :
  gameOverCount (addScore p s) = gameOverCount s.
Proof.
  unfold gameOverCount at 1; simpl. rewrite gameOverCount_app; simpl. lia.
Qed.

Lemma Kind_eqb_refl (k : Kind) : Kind_eqb k k = true.
Proof. now destruct k. Qed.

Lemma run_app (c : Controller) (pre post : list Signal) (g : Game) :
  run c (pre ++ post) g = run c post (run c pre g).
Proof. apply fold_left_app. Qed.

Lemma run_cons (c : Controller) (sig : Signal) (sigs : list Signal) (g : Game) :
  run c (sig :: sigs) g = run c sigs (deliver c sig g).
Proof. reflexivity. Qed.

(** A property kept by every delivery is kept by a whole run. *)
Lemma run_invariant (c : Controller) (P : Game -> Prop) :
  (forall sig g, P g -> P (deliver c sig g)) ->
  forall sigs g, P g -> P (run c sigs g).
Proof.
  intros step sigs; induction sigs as [|sig sigs IH]; intros g Hg.
  - exact Hg.
  - rewrite run_cons. apply IH, step, Hg.
Qed.

(** Splits a delivery into the cases of the controller, the signal and
    the tests the handler makes. *)
Ltac handler_cases c sig :=
  destruct c, sig as [[|] ? [|] | [|] ? | | ? ?];
  cbn -[Nat.leb maxMissed];
  repeat match goal with
         | |- context [if ?b then _ else _] => destruct b eqn:?
         end;
  cbn -[Nat.leb maxMissed].

Lemma deliver_session_step (c : Controller) (sig : Signal) (g : Game) :
  SessionStep (session g) (session (deliver c sig g)).
Proof.
  handler_cases c sig;
    first [ apply StepIdle | apply StepOver
          | apply StepScore; simpl; tauto ].
Qed.

Lemma deliver_score_le (c : Controller) (sig : Signal) (g : Game) :
  (score (session g) <= score (session (deliver c sig g)))%Z.
Proof.
  destruct (deliver_session_step c sig g) as [|p Hp|]; simpl; try lia.
  destruct Hp as [<-|[<-|[<-|[]]]]; lia.
Qed.

Lemma deliver_killed_mono (c : Controller) (sig : Signal) (g : Game)
    (k : Kind) (self : nat) :
  isKilled k self g = true -> isKilled k self (deliver c sig g) = true.
Proof.
  intros Hk.
  handler_cases c sig; try assumption;
    unfold isKilled in *; simpl; rewrite ?Hk, ?orb_true_r; reflexivity.
Qed.

Lemma run_killed_mono (c : Controller) (sigs : list Signal) (g : Game)
    (k : Kind) (self : nat) :
  isKilled k self g = true -> isKilled k self (run c sigs g) = true.
Proof.
  apply (run_invariant c (fun g => isKilled k self g = true)).
  intros sig g'. apply deliver_killed_mono.
Qed.

(* ================================================================= *)
(** * Game over and score (claims C1, C2) *)

(** C1, as stated, fails: the game-over callback is not limited to one
    invocation. In dodge mode a first obstacle hits the player and
    [onGameOver] is invoked; a second obstacle hitting the player invokes
    it again. *)
Lemma gameOver_invoked_twice :
  let g1 := deliver Dodge (CollisionStart Hazard 0 ThePlayer) newGame in
  let g2 := deliver Dodge (CollisionStart Hazard 1 ThePlayer) g1 in
  terminal (session g1) = true /\
  gameOverCount (session g1) = 1 /\
  gameOverCount (session g2) = 2 /\
  calls (session (run Dodge Samples.doubleHit newGame)) =
    [OnGameOver 0; OnGameOver 0].
Proof. repeat split. Qed.

(** C1, amended: every trigger of the game-over path invokes [onGameOver]
    once more with the current score. In platformer, dodge and runner
    mode, a live hazard that starts colliding with the player appends one
    [onGameOver(score)] to the callback trace, whatever the trace already
    holds, and leaves the score as it is; in platformer and runner mode
    so does every frame in which the player is below the field. *)
Theorem gameOver_invoked_per_trigger
    (c : Controller) (self : nat) (g : Game) (playerY drawHeight : JS.number) :
  (c <> Collector ->
   isKilled Hazard self g = false ->
   let g' := deliver c (CollisionStart Hazard self ThePlayer) g in
   session g' = gameOver (session g) /\
   calls (session g') = calls (session g) ++ [OnGameOver (score (session g))] /\
   gameOverCount (session g') = S (gameOverCount (session g))) /\
  (c = Platformer \/ c = Runner ->
   fellOff playerY drawHeight = true ->
   let g' := deliver c (PreUpdate playerY drawHeight) g in
   session g' = gameOver (session g) /\
   gameOverCount (session g') = S (gameOverCount (session g))).
Proof.
  split.
  - intros Hc Hlive g'. subst g'.
    assert (E : session (deliver c (CollisionStart Hazard self ThePlayer) g)
                = gameOver (session g)).
    { destruct c; simpl; rewrite Hlive; try reflexivity. congruence. }
    rewrite E. repeat split. apply gameOverCount_gameOver.
  - intros Hc Hfell g'. subst g'.
    assert (E : session (deliver c (PreUpdate playerY drawHeight) g)
                = gameOver (session g)).
    { destruct Hc as [-> | ->]; simpl; now rewrite Hfell. }
    rewrite E. split; [reflexivity | apply gameOverCount_gameOver].
Qed.

Lemma gameOver_invoked_per_trigger_witness :
  let g1 := deliver Dodge (CollisionStart Hazard 0 ThePlayer) newGame in
  let g2 := deliver Runner (PreUpdate 701%float 600%float) newGame in
  gameOverCount (session (deliver Dodge (CollisionStart Hazard 1 ThePlayer) g1))
  = S (gameOverCount (session g1)) /\
  gameOverCount (session (deliver Runner (PreUpdate 702%float 600%float) g2))
  = S (gameOverCount (session g2)).
Proof.
  intros g1 g2. split.
  - apply (proj1 (gameOver_invoked_per_trigger Dodge 1 g1 0%float 0%float));
      [discriminate | reflexivity].
  - apply (proj2 (gameOver_invoked_per_trigger Runner 0 g2 702%float 600%float));
      [right; reflexivity | reflexivity].
Defined.

(** C2, as stated, fails: [addScore] is not a no-op after game over. In
    dodge mode, after a hit has reported game over, the next 500 ms score
    tick still raises the score and invokes [onScore]. *)
Lemma addScore_after_gameOver :
  let g1 := deliver Dodge (CollisionStart Hazard 0 ThePlayer) newGame in
  let g2 := deliver Dodge ScoreTimer g1 in
  terminal (session g1) = true /\
  score (session g1) = 0%Z /\
  score (session g2) = 1%Z /\
  calls (session g2) = [OnGameOver 0; OnScore 1].
Proof. repeat split. Qed.

(** C2, amended: over any run of any controller the score never
    decreases; every delivery leaves the session alone, calls [addScore]
    once with 1, 5 or 10 points, or calls [gameOver]; and [addScore] with
    a positive delta raises the score and reports the new total through
    [onScore], also when game over has been reported before. *)
Theorem score_never_decreases
    (c : Controller) (pre post : list Signal) (g : Game) (p : Z) (s : Session) :
  (0 < p)%Z ->
  (score (session (run c pre g)) <= score (session (run c (pre ++ post) g)))%Z /\
  (forall sig, SessionStep (session g) (session (deliver c sig g))) /\
  (score s < score (addScore p s))%Z /\
  calls (addScore p s) = calls s ++ [OnScore (score s + p)].
Proof.
  intros Hp. repeat split.
  - rewrite run_app. generalize (run c pre g) as g0.
    induction post as [|sig post IH]; intros g0.
    + simpl; lia.
    + rewrite run_cons. specialize (IH (deliver c sig g0)).
      pose proof (deliver_score_le c sig g0). lia.
  - intros sig. apply deliver_session_step.
  - simpl; lia.
Qed.

Lemma score_never_decreases_witness :
  let g1 := deliver Dodge (CollisionStart Hazard 0 ThePlayer) newGame in
  (score (session g1) < score (addScore 1 (session g1)))%Z.
Proof.
  intros g1.
  apply (score_never_decreases Dodge [ScoreTimer] [ExitViewport Hazard 3]
           newGame 1%Z (session g1)).
  reflexivity.
Defined.

(* ================================================================= *)
(** * Collector mode (claims C3, C10) *)

(** C3, as stated, fails: after the tenth uncollected reward has left the
    field and [onGameOver] has fired, the eleventh fires it again. *)
Lemma collector_gameOver_refires :
  gameOverCount (session (run Collector (firstn 9 Samples.elevenMisses) newGame)) = 0 /\
  gameOverCount (session (run Collector (firstn 10 Samples.elevenMisses) newGame)) = 1 /\
  gameOverCount (session (run Collector Samples.elevenMisses newGame)) = 2.
Proof. repeat split. Qed.

Lemma collector_step_count (sig : Signal) (g : Game) :
  gameOverCount (session g) = missed g - 9 ->
  gameOverCount (session (deliver Collector sig g)) =
  missed (deliver Collector sig g) - 9.
Proof.
  intros Hinv.
  destruct sig as [[|] self [|] | [|] self | | y h];
    cbn -[Nat.leb maxMissed];
    repeat match goal with
           | |- context [if ?b then _ else _] => destruct b eqn:?
           end;
    cbn -[Nat.leb maxMissed]; try assumption.
  - rewrite gameOverCount_app; simpl; lia.
  - rewrite gameOverCount_app; simpl.
    apply Nat.leb_le in Heqb0. unfold maxMissed in Heqb0. lia.
  - apply Nat.leb_gt in Heqb0. unfold maxMissed in Heqb0. lia.
Qed.

(** C3, amended: in collector mode [onGameOver] fires when the missed
    counter reaches 10 and again at every later uncollected exit: at any
    point of any run the number of invocations is the missed counter
    minus 9 (zero below ten misses), and each live reward that leaves the
    field raises the counter by one. *)
Theorem collector_gameOver_from_tenth_miss (sigs : list Signal) (self : nat) :
  let g := run Collector sigs newGame in
  gameOverCount (session g) = missed g - 9 /\
  (isKilled Pickup self g = false ->
   missed (deliver Collector (ExitViewport Pickup self) g) = S (missed g)).
Proof.
  intros g; split.
  - subst g.
    apply (run_invariant Collector
             (fun g => gameOverCount (session g) = missed g - 9)).
    + intros sig g. apply collector_step_count.
    + reflexivity.
  - intros Hlive. cbn -[Nat.leb maxMissed]. rewrite Hlive.
    cbn -[Nat.leb maxMissed].
    now destruct (Nat.leb maxMissed (S (missed g))).
Qed.

Lemma collector_gameOver_from_tenth_miss_witness :
  let g := run Collector (firstn 9 Samples.elevenMisses) newGame in
  missed (deliver Collector (ExitViewport Pickup 9) g) = S (missed g).
Proof.
  intros g.
  apply (collector_gameOver_from_tenth_miss (firstn 9 Samples.elevenMisses) 9).
  reflexivity.
Defined.

Lemma isKilled_false_not_In (k : Kind) (self : nat) (g : Game) :
  isKilled k self g = false -> ~ In (k, self) (killed g).
Proof.
  intros Hlive Hin.
  assert (isKilled k self g = true) as Hdead; [|congruence].
  apply existsb_exists. exists (k, self); split; [exact Hin|].
  simpl. now rewrite Kind_eqb_refl, Nat.eqb_refl.
Qed.

Lemma collector_step_account (sig : Signal) (g : Game) :
  collectorAccount g -> collectorAccount (deliver Collector sig g).
Proof.
  intros [Hnd Hsum].
  destruct sig as [[|] self [|] | [|] self | | y h];
    cbn -[Nat.leb maxMissed];
    repeat match goal with
           | |- context [if ?b then _ else _] => destruct b eqn:?
           end;
    try (split; assumption);
    (split; cbn -[Nat.leb maxMissed Z.mul Z.add Z.of_nat];
     [ constructor; [now apply isKilled_false_not_In | exact Hnd]
     | cbn -[Z.mul Z.add Z.of_nat] in Hsum |- *; lia ]).
Qed.

(** C10: in collector mode every reward is counted at most once and in
    one way. Over any run the killed rewards are pairwise distinct and
    each accounts for five points or for one miss; a live reward that
    starts colliding with the player scores five points, leaves the
    missed counter alone and is killed, so that at any later point of the
    run its exit-viewport signal reaches no handler and changes nothing. *)
Theorem collector_reward_counted_once
    (sigs later : list Signal) (self : nat) :
  let g := run Collector sigs newGame in
  NoDup (killed g) /\
  (score (session g) + 5 * Z.of_nat (missed g) =
   5 * Z.of_nat (List.length (killed g)))%Z /\
  (isKilled Pickup self g = false ->
   let g1 := deliver Collector (CollisionStart Pickup self ThePlayer) g in
   let g2 := run Collector later g1 in
   score (session g1) = (score (session g) + 5)%Z /\
   missed g1 = missed g /\
   isKilled Pickup self g1 = true /\
   deliver Collector (ExitViewport Pickup self) g2 = g2).
Proof.
  intros g.
  assert (Hacc : collectorAccount g).
  { subst g. apply (run_invariant Collector collectorAccount).
    - intros sig g. apply collector_step_account.
    - split; [constructor | reflexivity]. }
  destruct Hacc as [Hnd Hsum]. split; [exact Hnd|]. split; [exact Hsum|].
  intros Hlive g1 g2.
  assert (Hdead : isKilled Pickup self g1 = true).
  { subst g1. cbn. rewrite Hlive. cbn. now rewrite Nat.eqb_refl. }
  repeat split.
  - subst g1. cbn. now rewrite Hlive.
  - subst g1. cbn. now rewrite Hlive.
  - exact Hdead.
  - subst g2. unfold deliver.
    now rewrite (run_killed_mono Collector later g1 Pickup self Hdead).
Qed.

Lemma collector_reward_counted_once_witness :
  let g := run Collector [ExitViewport Pickup 0] newGame in
  let g1 := deliver Collector (CollisionStart Pickup 1 ThePlayer) g in
  let g2 := run Collector [ExitViewport Pickup 2; ExitViewport Pickup 1] g1 in
  score (session g1) = (score (session g) + 5)%Z /\
  missed g1 = missed g /\
  isKilled Pickup 1 g1 = true /\
  deliver Collector (ExitViewport Pickup 1) g2 = g2.
Proof.
  intros g.
  apply (collector_reward_counted_once [ExitViewport Pickup 0]
           [ExitViewport Pickup 2; ExitViewport Pickup 1] 1).
  reflexivity.
Defined.

(* ================================================================= *)
(** * NaN in the music mapping *)

Lemma SFdiv_finite_not_nan (s : bool) (m : positive) (e : Z) (y : spec_float) :
  y <> S754_nan -> SFdiv prec emax (S754_finite s m e) y <> S754_nan.
Proof.
  intros Hy. destruct y as [sy|sy| |sy my ey]; simpl; try discriminate;
    try congruence.
  pose proof (SFdiv_core_nonneg m my e ey) as Hq.
  destruct (SFdiv_core_binary prec emax (Z.pos m) e (Z.pos my) ey)
    as [[mz ez] lz]. simpl in Hq.
  destruct (binary_round_aux_signed (xorb s sy) mz ez lz Hq)
    as [H|[H|(m' & e' & H)]]; rewrite H; discriminate.
Qed.

Lemma SFdiv_by_finite_not_nan (x : spec_float) (s : bool) (m : positive) (e : Z) :
  x <> S754_nan -> SFdiv prec emax x (S754_finite s m e) <> S754_nan.
Proof.
  intros Hx. destruct x as [sx|sx| |sx mx ex]; simpl; try discriminate;
    try congruence.
  pose proof (SFdiv_core_nonneg mx m ex e) as Hq.
  destruct (SFdiv_core_binary prec emax (Z.pos mx) ex (Z.pos m) e)
    as [[mz ez] lz]. simpl in Hq.
  destruct (binary_round_aux_signed (xorb sx s) mz ez lz Hq)
    as [H|[H|(m' & e' & H)]]; rewrite H; discriminate.
Qed.

Lemma SFmul_by_finite_not_nan (x : spec_float) (s : bool) (m : positive) (e : Z) :
  x <> S754_nan -> SFmul prec emax x (S754_finite s m e) <> S754_nan.
Proof.
  intros Hx. destruct x as [sx|sx| |sx mx ex]; simpl; try discriminate;
    try congruence.
  destruct (binary_round_aux_signed (xorb sx s) (Z.pos (mx * m)) (ex + e)
              loc_Exact ltac:(lia))
    as [H|[H|(m' & e' & H)]]; std_Z; rewrite H; discriminate.
Qed.

(** NaN operands give NaN. *)
Lemma div_nan_r (x y : float) :
  PrimFloat.is_nan y = true -> PrimFloat.is_nan (x / y)%float = true.
Proof.
  intros Hy. apply is_nan_Prim2SF in Hy. apply is_nan_Prim2SF.
  rewrite div_spec, Hy. unfold SF64div. now destruct (Prim2SF x).
Qed.

Lemma mul_nan_l (x y : float) :
  PrimFloat.is_nan x = true -> PrimFloat.is_nan (x * y)%float = true.
Proof.
  intros Hx. apply is_nan_Prim2SF in Hx. apply is_nan_Prim2SF.
  rewrite mul_spec, Hx. reflexivity.
Qed.

Lemma Math_min_nan (a x : float) :
  PrimFloat.is_nan x = true -> JS.Math_min a x = PrimFloat.nan.
Proof. intros Hx. unfold JS.Math_min. now rewrite Hx, orb_true_r. Qed.

Lemma Math_max_nan (a x : float) :
  PrimFloat.is_nan x = true -> JS.Math_max a x = PrimFloat.nan.
Proof. intros Hx. unfold JS.Math_max. now rewrite Hx, orb_true_r. Qed.

Lemma truthy_getBpm (config : GameConfiguration) :
  JS.truthy (AssetEngine.getBpm config) = true.
Proof.
  unfold AssetEngine.getBpm.
  destruct (metrics config) as [m|]; simpl; [|reflexivity].
  now destruct (JS.truthy (avgTempo m)) eqn:E.
Qed.

Lemma truthy_not_nan (x : float) :
  JS.truthy x = true -> PrimFloat.is_nan x = false.
Proof.
  unfold JS.truthy. destruct (PrimFloat.is_nan x); [discriminate|reflexivity].
Qed.

(** X1: with metrics present, the spawn interval of src/src/game/engine.ts
    is NaN exactly when the raw product is NaN and lies in [400, 3000]
    otherwise; a NaN tempo or a NaN energy makes it NaN. *)
Theorem getMusicSpawnRate_nan_or_clamped
    (config : GameConfiguration) (m : PlaylistMetrics) :
  metrics config = Some m ->
  let raw := (60000 / avgTempo m * (1.5 - avgEnergy m))%float in
  PrimFloat.is_nan (Engine.getMusicSpawnRate config) = PrimFloat.is_nan raw /\
  (PrimFloat.is_nan raw = false ->
   PrimFloat.leb 400%float (Engine.getMusicSpawnRate config) = true /\
   PrimFloat.leb (Engine.getMusicSpawnRate config) 3000%float = true) /\
  (PrimFloat.is_nan (avgTempo m) = true ->
   PrimFloat.is_nan (Engine.getMusicSpawnRate config) = true).
Proof.
  intros Hm raw. unfold Engine.getMusicSpawnRate. rewrite Hm.
  cbv zeta. fold raw.
  assert (Hrange : PrimFloat.is_nan raw = false ->
            PrimFloat.leb 400%float
              (JS.Math_max 400%float (JS.Math_min 3000%float raw)) = true /\
            PrimFloat.leb (JS.Math_max 400%float (JS.Math_min 3000%float raw))
              3000%float = true)
    by apply clamped_in_range.
  assert (Hnan : PrimFloat.is_nan raw = true ->
            JS.Math_max 400%float (JS.Math_min 3000%float raw) = PrimFloat.nan).
  { intros H. rewrite (Math_min_nan _ _ H). reflexivity. }
  split; [|split].
  - destruct (PrimFloat.is_nan raw) eqn:E.
    + now rewrite Hnan.
    + destruct (Hrange eq_refl) as [H _].
      destruct (PrimFloat.is_nan (JS.Math_max 400%float
                                    (JS.Math_min 3000%float raw))) eqn:E2;
        [|reflexivity].
      apply is_nan_eq in E2. rewrite E2 in H. discriminate.
  - exact Hrange.
  - intros Ht. rewrite Hnan; [reflexivity|].
    unfold raw. apply mul_nan_l, div_nan_r, Ht.
Qed.

Lemma getMusicSpawnRate_nan_or_clamped_witness :
  PrimFloat.is_nan
    (Engine.getMusicSpawnRate
       (Samples.configOf "dodge" 1%float
          (Some (Samples.metricsOf PrimFloat.nan 0.5%float 0.2%float)))) = true.
Proof.
  apply (getMusicSpawnRate_nan_or_clamped
           (Samples.configOf "dodge" 1%float
              (Some (Samples.metricsOf PrimFloat.nan 0.5%float 0.2%float)))
           (Samples.metricsOf PrimFloat.nan 0.5%float 0.2%float));
    reflexivity.
Defined.

(** X2: in the engine source with [getBpm], the tempo in use is never 0
    and never NaN, whatever the metrics hold, so the beat interval, the
    fade and shake durations and the rotation speed are never NaN; the
    pulse timer of src/src/game/engine.ts is protected the same way. *)
Theorem beat_never_nan (config : GameConfiguration) :
  JS.truthy (AssetEngine.getBpm config) = true /\
  PrimFloat.is_nan (AssetEngine.getBeatMs config) = false /\
  PrimFloat.is_nan (AssetEngine.getBeatMs config * 0.8)%float = false /\
  PrimFloat.is_nan (AssetEngine.getBeatMs config * 0.3)%float = false /\
  PrimFloat.is_nan (Visuals.addBeatRotation config) = false /\
  PrimFloat.is_nan (Engine.beatInterval config) = false.
Proof.
  pose proof (truthy_getBpm config) as Ht.
  pose proof (truthy_not_nan _ Ht) as Hn. apply is_nan_false in Hn.
  assert (Hbeat : Prim2SF (AssetEngine.getBeatMs config) <> S754_nan).
  { unfold AssetEngine.getBeatMs. rewrite div_spec. unfold SF64div.
    change (Prim2SF 60000%float) with (S754_finite false 8246337208320000 (-37)).
    now apply SFdiv_finite_not_nan. }
  repeat split; try assumption.
  - now apply is_nan_false.
  - apply is_nan_false. rewrite mul_spec. unfold SF64mul.
    change (Prim2SF 0.8%float) with (S754_finite false 7205759403792794 (-53)).
    now apply SFmul_by_finite_not_nan.
  - apply is_nan_false. rewrite mul_spec. unfold SF64mul.
    change (Prim2SF 0.3%float) with (S754_finite false 5404319552844595 (-54)).
    now apply SFmul_by_finite_not_nan.
  - apply is_nan_false. unfold Visuals.addBeatRotation.
    rewrite mul_spec, div_spec. unfold SF64mul, SF64div.
    change (Prim2SF 1.5%float) with (S754_finite false 6755399441055744 (-52)).
    change (Prim2SF 120%float) with (S754_finite false 8444249301319680 (-46)).
    now apply SFmul_by_finite_not_nan, SFdiv_by_finite_not_nan.
  - now apply is_nan_false.
Qed.

(* ================================================================= *)
(** * What the callbacks report *)

Lemma scoreReports_app (cs ds : list Callback) :
  scoreReports (cs ++ ds) = scoreReports cs ++ scoreReports ds.
Proof.
  induction cs as [|[v|v] cs IH]; simpl; congruence.
Qed.

Lemma StronglySorted_snoc (l : list Z) (v : Z) :
  StronglySorted Z.lt l -> Forall (fun u => u < v)%Z l ->
  StronglySorted Z.lt (l ++ [v]).
Proof.
  induction l as [|u l IH]; intros Hs Hl; simpl.
  - repeat constructor.
  - inversion Hs as [|? ? Hs' Hu]; subst. inversion Hl as [|? ? Huv Hl']; subst.
    constructor; [now apply IH|].
    apply Forall_app; split; [exact Hu | now constructor].
Qed.

Lemma traceAgrees_step (s s' : Session) :
  SessionStep s s' -> traceAgrees s -> traceAgrees s'.
Proof.
  intros Hstep (H0 & Hall & Hsort & Hpos & Hlast).
  destruct Hstep as [|p Hp|].
  - repeat split; assumption.
  - assert (Hp' : (0 < p)%Z) by (destruct Hp as [<-|[<-|[<-|[]]]]; lia).
    unfold traceAgrees; simpl. rewrite map_app, scoreReports_app; simpl.
    repeat split.
    + lia.
    + apply Forall_app; split.
      * eapply Forall_impl; [|exact Hall]. simpl; intros; lia.
      * repeat constructor; lia.
    + apply StronglySorted_snoc; [exact Hsort|].
      eapply Forall_impl; [|exact Hpos]. simpl; intros; lia.
    + apply Forall_app; split.
      * eapply Forall_impl; [|exact Hpos]. simpl; intros; lia.
      * repeat constructor; lia.
    + now rewrite last_last.
  - unfold traceAgrees; simpl. rewrite map_app, scoreReports_app; simpl.
    rewrite app_nil_r.
    repeat split; try assumption.
    + apply Forall_app; split; [exact Hall|]. repeat constructor; lia.
    + now rewrite last_last.
Qed.

(** X3: in every mode and at every point of a run, the callback trace
    agrees with the score: the scores passed to [onScore] are positive and
    strictly increasing, the latest number passed to either callback is
    the current score, and no reported number exceeds it. *)
Theorem callbacks_report_the_score (c : Controller) (sigs : list Signal) :
  let s := session (run c sigs newGame) in
  (0 <= score s)%Z /\
  Forall (fun v => 0 <= v <= score s)%Z (map reported (calls s)) /\
  StronglySorted Z.lt (scoreReports (calls s)) /\
  Forall (fun v => 0 < v <= score s)%Z (scoreReports (calls s)) /\
  last (map reported (calls s)) 0%Z = score s.
Proof.
  apply (run_invariant c (fun g => traceAgrees (session g))).
  - intros sig g. apply traceAgrees_step, deliver_session_step.
  - unfold traceAgrees; simpl. repeat split; try constructor; lia.
Qed.

(* ================================================================= *)
(** * Where the points come from *)

Lemma killedOf_kill (k k' : Kind) (self : nat) (g : Game) :
  killedOf k (kill k' self g) =
  (if Kind_eqb k' k then 1 else 0) + killedOf k g.
Proof.
  unfold killedOf, kill; simpl. now destruct (Kind_eqb k' k).
Qed.








(* ================================================================= *)
(** * Player controls *)



(** X7: opposing keys. In the platformer and in dodge mode left wins
    over right (and in dodge mode up over down); in collector mode the
    later [if] wins: right over left and down over up. With no movement
    key held the dodge and collector players stand still. *)
Theorem opposing_keys
    (config : GameConfiguration) (gravity : JS.number)
    (k : Keyboard) (p : Player) :
  (heldLeft k || heldA k = true ->
   velX (platformerControls config gravity k p) = (- playerSpeed config)%float /\
   velX (dodgeControls config k p) = (- playerSpeed config)%float) /\
  (heldUp k || heldW k = true ->
   velY (dodgeControls config k p) = (- playerSpeed config)%float) /\
  (heldRight k || heldD k = true ->
   velX (collectorControls config k p) = (playerSpeed config * 0.8)%float) /\
  (heldDown k || heldS k = true ->
   velY (collectorControls config k p) = (playerSpeed config * 0.8)%float) /\
  (heldLeft k || heldA k = false -> heldRight k || heldD k = false ->
   heldUp k || heldW k = false -> heldDown k || heldS k = false ->
   velX (dodgeControls config k p) = 0%float /\
   velY (dodgeControls config k p) = 0%float /\
   velX (collectorControls config k p) = 0%float /\
   velY (collectorControls config k p) = 0%float).
Proof.
  split; [|split; [|split; [|split]]].
  - intros Hl. split.
    + unfold platformerControls. cbv zeta. rewrite Hl.
      now destruct (jumpPressed k && isGrounded p).
    + cbn. now rewrite Hl.
  - intros Hu. cbn. now rewrite Hu.
  - intros Hr. cbn. now rewrite Hr.
  - intros Hd. cbn. now rewrite Hd.
  - intros Hl Hr Hu Hd. cbn. now rewrite Hl, Hr, Hu, Hd.
Qed.

Lemma opposing_keys_witness :
  let k := mkKeyboard true false true false true false true false
             false false false in
  velX (platformerControls Samples.bare 1%float k platformerPlayer)
    = (- playerSpeed Samples.bare)%float /\
  velX (collectorControls Samples.bare k platformerPlayer)
    = (playerSpeed Samples.bare * 0.8)%float.
Proof.
  intros k.
  pose proof (opposing_keys Samples.bare 1%float k platformerPlayer)
    as (Hl & _ & Hr & _).
  split; [apply Hl | apply Hr]; reflexivity.
Defined.

(* ================================================================= *)
(** * Playlist identifiers *)

Section PlaylistId.
Import Index.

Lemma takeWhile_all (f : N -> bool) (s : jsString) :
  forallb f (takeWhile f s) = true.
Proof.
  induction s as [|c s IH]; simpl; [reflexivity|].
  destruct (f c) eqn:E; simpl; [now rewrite E|reflexivity].
Qed.

Lemma takeWhile_app (f : N -> bool) (s rest : jsString) :
  forallb f s = true -> takeWhile f rest = [] ->
  takeWhile f (s ++ rest) = s.
Proof.
  intros Hs Hrest. induction s as [|c s IH]; simpl in *; [exact Hrest|].
  apply andb_true_iff in Hs as [Hc Hs]. rewrite Hc. f_equal. now apply IH.
Qed.

Lemma dropWhile_app (f : N -> bool) (ws s : jsString) :
  forallb f ws = true -> dropWhile f (ws ++ s) = dropWhile f s.
Proof.
  intros Hws. induction ws as [|c ws IH]; simpl in *; [reflexivity|].
  apply andb_true_iff in Hws as [Hc Hws]. rewrite Hc. now apply IH.
Qed.

Lemma matchHere_Some (s id : jsString) :
  matchHere s = Some id -> id <> [] /\ forallb isAlnum id = true.
Proof.
  unfold matchHere. destruct (stripPrefix (lit "playlist/") s) as [rest|];
    [|discriminate].
  pose proof (takeWhile_all isAlnum rest) as Hall.
  destruct (takeWhile isAlnum rest) as [|c run]; [discriminate|].
  intros [= <-]. split; [discriminate | exact Hall].
Qed.

Lemma urlMatch_Some (s id : jsString) :
  urlMatch s = Some id -> id <> [] /\ forallb isAlnum id = true.
Proof.
  induction s as [|c s IH]; cbn [urlMatch].
  - now destruct (matchHere []) eqn:E.
  - destruct (matchHere (c :: s)) eqn:E.
    + intros [= <-]. now apply matchHere_Some in E.
    + exact IH.
Qed.

(** X8: [extractPlaylistId] never returns an empty identifier or one with
    a character outside [a-z], [A-Z], [0-9]. *)
Theorem extractPlaylistId_alphanumeric (input id : jsString) :
  extractPlaylistId input = Some id ->
  id <> [] /\ forallb isAlnum id = true.
Proof.
  unfold extractPlaylistId.
  destruct (urlMatch input) as [u|] eqn:E.
  - intros [= <-]. now apply urlMatch_Some in E.
  - destruct (Nat.eqb (List.length (trim input)) 22) eqn:Hlen; simpl;
      [|discriminate].
    destruct (forallb isAlnum (trim input)) eqn:Hall; [|discriminate].
    intros [= <-]. split; [|exact Hall].
    apply Nat.eqb_eq in Hlen. intros Hnil. now rewrite Hnil in Hlen.
Qed.

Lemma extractPlaylistId_alphanumeric_witness :
  lit "37i9dQZF1DXcBWIGoYBM5M" <> [] /\
  forallb isAlnum (lit "37i9dQZF1DXcBWIGoYBM5M") = true.
Proof.
  apply (extractPlaylistId_alphanumeric
           (lit "https://open.spotify.com/playlist/37i9dQZF1DXcBWIGoYBM5M?si=1")).
  reflexivity.
Defined.

Lemma stripPrefix_app (p s rest : jsString) :
  stripPrefix p s = Some rest -> s = p ++ rest.
Proof.
  revert s. induction p as [|a p IH]; intros s; simpl.
  - now intros [= ->].
  - destruct s as [|b s]; [discriminate|].
    destruct (N.eqb_spec a b) as [->|]; [|discriminate].
    intros H. f_equal. now apply IH.
Qed.

Lemma matchHere_noSlash (s : jsString) :
  noSlash s = true -> matchHere s = None.
Proof.
  intros Hs. unfold matchHere.
  destruct (stripPrefix (lit "playlist/") s) as [rest|] eqn:E; [|reflexivity].
  apply stripPrefix_app in E. subst s.
  unfold noSlash in Hs. rewrite forallb_app in Hs.
  apply andb_true_iff in Hs as [Hs _]. discriminate Hs.
Qed.

Lemma urlMatch_noSlash (s : jsString) :
  noSlash s = true -> urlMatch s = None.
Proof.
  induction s as [|c s IH]; intros Hs.
  - reflexivity.
  - cbn [urlMatch]. rewrite (matchHere_noSlash _ Hs).
    apply IH. simpl in Hs. now apply andb_true_iff in Hs as [_ Hs].
Qed.

Lemma alnum_not_white (c : N) : isAlnum c = true -> isWhite c = false.
Proof.
  unfold isAlnum, isWhite. intros H.
  repeat (apply orb_true_iff in H; destruct H as [H|H]);
    apply andb_true_iff in H as [H1 H2];
    apply N.leb_le in H1, H2;
    repeat (apply orb_false_iff; split);
    try (apply andb_false_iff);
    try (apply N.eqb_neq; lia);
    try (left; apply N.leb_gt; lia); try (right; apply N.leb_gt; lia).
Qed.

Lemma alnum_noSlash (s : jsString) :
  forallb isAlnum s = true -> noSlash s = true.
Proof.
  unfold noSlash. intros H. rewrite forallb_forall in *. intros c Hc.
  specialize (H c Hc). destruct (N.eqb_spec c 47) as [->|]; [discriminate H|].
  reflexivity.
Qed.

Lemma white_noSlash (s : jsString) :
  forallb isWhite s = true -> noSlash s = true.
Proof.
  unfold noSlash. intros H. rewrite forallb_forall in *. intros c Hc.
  specialize (H c Hc). destruct (N.eqb_spec c 47) as [->|]; [discriminate H|].
  reflexivity.
Qed.

Lemma dropWhile_stop (s : jsString) (c : N) :
  isWhite c = false -> dropWhile isWhite (c :: s) = c :: s.
Proof. intros H. simpl. now rewrite H. Qed.

(** Trimming removes surrounding whitespace from an identifier. *)
Lemma trim_padded (pre id post : jsString) :
  id <> [] -> forallb isAlnum id = true ->
  forallb isWhite pre = true -> forallb isWhite post = true ->
  trim (pre ++ id ++ post) = id.
Proof.
  intros Hne Hid Hpre Hpost. unfold trim.
  rewrite dropWhile_app by exact Hpre.
  assert (Hfirst : dropWhile isWhite (id ++ post) = id ++ post).
  { destruct id as [|c id]; [congruence|]. simpl in Hid.
    apply andb_true_iff in Hid as [Hc _].
    apply dropWhile_stop, alnum_not_white, Hc. }
  rewrite Hfirst, rev_app_distr.
  rewrite dropWhile_app by (rewrite forallb_forall in *; intros c Hc;
                            apply Hpost, in_rev, Hc).
  assert (Hlast : dropWhile isWhite (rev id) = rev id).
  { destruct (rev id) as [|c r] eqn:E.
    - reflexivity.
    - apply dropWhile_stop, alnum_not_white.
      rewrite forallb_forall in Hid. apply Hid, in_rev. rewrite E. now left. }
  now rewrite Hlast, rev_involutive.
Qed.

(** X9: a bare identifier of 22 alphanumeric characters is returned as it
    is, with any whitespace around it removed; an input without a slash
    whose trimmed length is not 22 is rejected. *)
Theorem extractPlaylistId_bare (pre id post s : jsString) :
  (List.length id = 22 -> forallb isAlnum id = true ->
   forallb isWhite pre = true -> forallb isWhite post = true ->
   extractPlaylistId (pre ++ id ++ post) = Some id) /\
  (noSlash s = true -> List.length (trim s) <> 22 ->
   extractPlaylistId s = None).
Proof.
  split.
  - intros Hlen Hid Hpre Hpost. unfold extractPlaylistId.
    assert (Hns : noSlash (pre ++ id ++ post) = true).
    { unfold noSlash. rewrite !forallb_app.
      fold (noSlash pre) (noSlash id) (noSlash post).
      now rewrite (white_noSlash pre), (alnum_noSlash id), (white_noSlash post). }
    rewrite (urlMatch_noSlash _ Hns).
    assert (Hne : id <> []) by (intros ->; discriminate Hlen).
    rewrite (trim_padded pre id post Hne Hid Hpre Hpost).
    now rewrite Hlen, Hid.
  - intros Hns Hlen. unfold extractPlaylistId.
    rewrite (urlMatch_noSlash _ Hns).
    apply Nat.eqb_neq in Hlen. now rewrite Hlen.
Qed.

Lemma extractPlaylistId_bare_witness :
  extractPlaylistId ([32; 9] ++ lit "37i9dQZF1DXcBWIGoYBM5M" ++ [10])%N =
    Some (lit "37i9dQZF1DXcBWIGoYBM5M") /\
  extractPlaylistId (lit "37i9dQZF1DXcBWIGoYBM5") = None.
Proof.
  split.
  - apply (proj1 (extractPlaylistId_bare [32; 9]%N (lit "37i9dQZF1DXcBWIGoYBM5M")
                    [10]%N [])); reflexivity.
  - apply (proj2 (extractPlaylistId_bare [] [] []
                    (lit "37i9dQZF1DXcBWIGoYBM5"))); [reflexivity|].
    vm_compute. discriminate.
Defined.

(** X10: from a playlist link [https://open.spotify.com/playlist/<id>]
    followed by nothing or by a character outside the class (such as the
    [?si=...] query), [extractPlaylistId] returns exactly [<id>], for an
    identifier of any length: the link form is not held to 22
    characters. *)
Theorem extractPlaylistId_link (id rest : jsString) :
  id <> [] -> forallb isAlnum id = true -> takeWhile isAlnum rest = [] ->
  extractPlaylistId (lit "https://open.spotify.com/playlist/" ++ id ++ rest)
  = Some id.
Proof.
  intros Hne Hid Hrest.
  unfold extractPlaylistId.
  assert (Hm : urlMatch (lit "https://open.spotify.com/playlist/" ++ id ++ rest)
               = Some id).
  { change (lit "https://open.spotify.com/playlist/")
      with (lit "https://open.spotify.com/" ++ lit "playlist/").
    rewrite <- app_assoc.
    assert (Hhere : matchHere (lit "playlist/" ++ id ++ rest) = Some id).
    { unfold matchHere.
      assert (Hs : stripPrefix (lit "playlist/") (lit "playlist/" ++ id ++ rest)
                   = Some (id ++ rest)) by reflexivity.
      rewrite Hs, (takeWhile_app _ _ _ Hid Hrest).
      destruct id; [congruence | reflexivity]. }
    assert (Hlast : urlMatch (lit "playlist/" ++ id ++ rest) = Some id).
    { change (lit "playlist/") with [112; 108; 97; 121; 108; 105; 115; 116; 47]%N
        in *.
      cbn [app urlMatch]. cbn [app] in Hhere. now rewrite Hhere. }
    revert Hlast. generalize (lit "playlist/" ++ id ++ rest). intros tail Htail.
    vm_compute lit. cbn -[matchHere urlMatch].
    repeat (cbn [urlMatch];
            match goal with
            | |- context [matchHere (?c :: ?t)] =>
                change (matchHere (c :: t)) with (@None jsString)
            end).
    exact Htail. }
  now rewrite Hm.
Qed.

Lemma extractPlaylistId_link_witness :
  extractPlaylistId
    (lit "https://open.spotify.com/playlist/" ++ lit "abc123" ++ lit "?si=9")
  = Some (lit "abc123").
Proof.
  apply (extractPlaylistId_link (lit "abc123") (lit "?si=9"));
    [discriminate | reflexivity | reflexivity].
Defined.

(** X11: started from the landing page, [handleGenerate] shows the game
    only when the link held an identifier and both backend calls
    resolved with data and no error; the configuration handed to the game
    then carries the analysed metrics, so the engine never takes its
    no-metrics branch, and no error was toasted. *)
Theorem handleGenerate_game_has_metrics
    (analyze : jsString -> InvokeResult PlaylistMetrics)
    (generate : string -> PlaylistMetrics -> InvokeResult GameConfiguration)
    (url : jsString) (st : AppState)
    (config : GameConfiguration) (name : string) (id : jsString) (sc : Z) :
  render st = LandingScreen ->
  render (fst (handleGenerate analyze generate url st))
    = GameScreen config name id sc ->
  exists m cfg,
    extractPlaylistId url = Some id /\
    analyze id = mkInvoke (Some m) None /\
    generate (playlistName m) m = mkInvoke (Some cfg) None /\
    config = attachMetrics cfg m /\
    metrics config = Some m /\
    Engine.getMusicSpawnRate config =
      clamp (60000 / avgTempo m * (1.5 - avgEnergy m))%float 400%float 3000%float /\
    snd (handleGenerate analyze generate url st)
      = [Invoke "spotify-analyze"; Invoke "gemini-generate"].
Proof.
  intros Hland. unfold handleGenerate.
  destruct (extractPlaylistId url) as [pid|] eqn:Eid.
  - destruct (analyze pid) as [[m|] [e1|]] eqn:Ea; cbn;
      try discriminate.
    destruct (generate (playlistName m) m) as [[cfg|] [e2|]] eqn:Eg; cbn;
      try discriminate.
    intros [= <- <- <- <-]. exists m, cfg.
    repeat split; try assumption.
    unfold Engine.getMusicSpawnRate. cbn. apply max_min_is_clamp.
  - cbn. rewrite Hland. discriminate.
Qed.

Lemma handleGenerate_game_has_metrics_witness :
  let analyze := fun _ : jsString =>
    mkInvoke (Some (Samples.metricsOf 140%float 0.8%float 0.2%float)) None in
  let generate := fun (_ : string) (_ : PlaylistMetrics) =>
    mkInvoke (Some Samples.bare) None in
  exists m cfg,
    extractPlaylistId (lit "https://open.spotify.com/playlist/abc") = Some (lit "abc") /\
    analyze (lit "abc") = mkInvoke (Some m) None /\
    generate (playlistName m) m = mkInvoke (Some cfg) None /\
    attachMetrics Samples.bare (Samples.metricsOf 140%float 0.8%float 0.2%float)
      = attachMetrics cfg m /\
    metrics (attachMetrics Samples.bare
               (Samples.metricsOf 140%float 0.8%float 0.2%float)) = Some m /\
    Engine.getMusicSpawnRate
      (attachMetrics Samples.bare (Samples.metricsOf 140%float 0.8%float 0.2%float)) =
      clamp (60000 / avgTempo m * (1.5 - avgEnergy m))%float 400%float 3000%float /\
    snd (handleGenerate analyze generate
           (lit "https://open.spotify.com/playlist/abc") initialApp)
      = [Invoke "spotify-analyze"; Invoke "gemini-generate"].
Proof.
  intros analyze generate.
  apply (handleGenerate_game_has_metrics analyze generate
           (lit "https://open.spotify.com/playlist/abc") initialApp
           (attachMetrics Samples.bare
              (Samples.metricsOf 140%float 0.8%float 0.2%float))
           "Neon Rush" (lit "abc") 0%Z); reflexivity.
Defined.



End PlaylistId.

(* ================================================================= *)
(** * Fallback metrics *)

Lemma toInt32_range (z : Z) :
  (-2147483648 <= JSMath.toInt32 z < 2147483648)%Z.
Proof.
  unfold JSMath.toInt32.
  pose proof (Z.mod_pos_bound (z + 2147483648) 4294967296 ltac:(lia)). lia.
Qed.

Lemma toInt32_wraps (z k : Z) :
  JSMath.toInt32 (z + 4294967296 * k) = JSMath.toInt32 z.
Proof.
  unfold JSMath.toInt32.
  replace (z + 4294967296 * k + 2147483648)%Z
    with (z + 2147483648 + k * 4294967296)%Z by lia.
  now rewrite Z_mod_plus_full.
Qed.

Lemma toInt32_multiple (z : Z) :
  exists k, JSMath.toInt32 z = (z + 4294967296 * k)%Z.
Proof.
  unfold JSMath.toInt32.
  exists (- ((z + 2147483648) / 4294967296))%Z.
  pose proof (Z.div_mod (z + 2147483648) 4294967296 ltac:(lia)). lia.
Qed.

Lemma hashStep_poly (p : Z) (c : N) :
  SpotifyAnalyze.hashStep (JSMath.toInt32 p) c
  = JSMath.toInt32 (31 * p + Z.of_N c).
Proof.
  unfold SpotifyAnalyze.hashStep.
  destruct (toInt32_multiple p) as [k1 ->].
  destruct (toInt32_multiple ((p + 4294967296 * k1) * 32)) as [k2 ->].
  replace ((p + 4294967296 * k1) * 32 + 4294967296 * k2
           - (p + 4294967296 * k1) + Z.of_N c)%Z
    with (31 * p + Z.of_N c + 4294967296 * (31 * k1 + k2))%Z by lia.
  apply toInt32_wraps.
Qed.

(** X13: the seed of the fallback metrics is the polynomial string hash
    in base 31 over the UTF-16 code units, wrapped to 32 bits, in absolute
    value: the shift-and-subtract of the source with the [|= 0] after
    every character equals one wrap at the end. The hash lies in
    [-2^31, 2^31) and the seed in [0, 2^31]. *)
Theorem fallback_seed_is_base31_hash (playlistId : Index.jsString) :
  SpotifyAnalyze.hashOf playlistId =
    JSMath.toInt32
      (fold_left (fun acc c => 31 * acc + Z.of_N c)%Z playlistId 0%Z) /\
  (-2147483648 <= SpotifyAnalyze.hashOf playlistId < 2147483648)%Z /\
  (0 <= SpotifyAnalyze.seedOf playlistId <= 2147483648)%Z.
Proof.
  assert (H : forall id p,
            fold_left SpotifyAnalyze.hashStep id (JSMath.toInt32 p)
            = JSMath.toInt32 (fold_left (fun acc c => 31 * acc + Z.of_N c)%Z id p)).
  { induction id as [|c id IH]; intros p; simpl; [reflexivity|].
    now rewrite hashStep_poly, IH. }
  assert (Hh : SpotifyAnalyze.hashOf playlistId =
               JSMath.toInt32
                 (fold_left (fun acc c => 31 * acc + Z.of_N c)%Z playlistId 0%Z))
    by exact (H playlistId 0%Z).
  split; [exact Hh|].
  unfold SpotifyAnalyze.seedOf. rewrite Hh.
  pose proof (toInt32_range
                (fold_left (fun acc c => 31 * acc + Z.of_N c)%Z playlistId 0%Z)).
  lia.
Qed.

(** A property checked on the residues [0 .. n-1] holds of [seed % n]. *)
Lemma rem_enum (f : Z -> bool) (n : nat) (seed : Z) :
  (0 <= seed)%Z -> 0 < n ->
  forallb (fun k => f (Z.of_nat k)) (seq 0 n) = true ->
  f (Z.rem seed (Z.of_nat n)) = true.
Proof.
  intros Hs Hn Hall.
  rewrite Z.rem_mod_nonneg by lia.
  pose proof (Z.mod_pos_bound seed (Z.of_nat n) ltac:(lia)) as Hb.
  rewrite forallb_forall in Hall.
  specialize (Hall (Z.to_nat (seed mod Z.of_nat n))).
  rewrite Z2Nat.id in Hall by lia.
  apply Hall, in_seq. lia.
Qed.

Lemma seedOf_nonneg (playlistId : Index.jsString) :
  (0 <= SpotifyAnalyze.seedOf playlistId)%Z.
Proof. apply Z.abs_nonneg. Qed.

(** X14: for every playlist identifier the fallback metrics lie in fixed
    ranges: 20 to 49 tracks, a tempo of 90 to 169 BPM, energy
    in [0.2, 0.99], valence in [0.15, 0.84], acousticness in [0.1, 0.69],
    danceability in [0.2, 0.94] (all inside [0, 1]) and loudness in
    [-12, -5] dB; the tempo is a whole number. *)
Theorem fallback_metrics_in_range (playlistId : Index.jsString) :
  let m := SpotifyAnalyze.generateFallbackMetrics playlistId in
  JSMath.within 20 49 (trackCount m) = true /\
  JSMath.within 90 169 (avgTempo m) = true /\
  JSMath.Math_round (avgTempo m) = avgTempo m /\
  JSMath.within 0.2 0.99 (avgEnergy m) = true /\
  JSMath.within 0.15 0.84 (avgValence m) = true /\
  JSMath.within 0.1 0.69 (avgAcousticness m) = true /\
  JSMath.within 0.2 0.94 (avgDanceability m) = true /\
  JSMath.within (-12) (-5) (avgLoudness m) = true.
Proof.
  intros m. subst m. unfold SpotifyAnalyze.generateFallbackMetrics.
  pose proof (seedOf_nonneg playlistId) as Hs.
  generalize dependent (SpotifyAnalyze.seedOf playlistId). intros seed Hs.
  unfold SpotifyAnalyze.metricsOfSeed.
  cbn [trackCount avgTempo avgEnergy avgValence avgAcousticness
       avgDanceability avgLoudness].
  repeat split.
  - apply (rem_enum (fun k => JSMath.within 20 49 (20 + JSMath.ofZ k)%float) 30 seed Hs);
      [lia | vm_compute; reflexivity].
  - apply (rem_enum (fun k => JSMath.within 90 169
                                (JSMath.Math_round (90 + JSMath.ofZ k)%float))
             80 seed Hs); [lia | vm_compute; reflexivity].
  - apply Leibniz.eqb_spec.
    apply (rem_enum (fun k => Leibniz.eqb
                                (JSMath.Math_round
                                   (JSMath.Math_round (90 + JSMath.ofZ k)%float))
                                (JSMath.Math_round (90 + JSMath.ofZ k)%float))
             80 seed Hs); [lia | vm_compute; reflexivity].
  - apply (rem_enum (fun k => JSMath.within 0.2 0.99
             (JSMath.Math_round ((JSMath.ofZ k / 100 + 0.2) * 100) / 100)%float)
             80 seed Hs); [lia | vm_compute; reflexivity].
  - apply (rem_enum (fun k => JSMath.within 0.15 0.84
             (JSMath.Math_round ((JSMath.ofZ k / 100 + 0.15) * 100) / 100)%float)
             70 seed Hs); [lia | vm_compute; reflexivity].
  - apply (rem_enum (fun k => JSMath.within 0.1 0.69
             (JSMath.Math_round ((JSMath.ofZ k / 100 + 0.1) * 100) / 100)%float)
             60 seed Hs); [lia | vm_compute; reflexivity].
  - apply (rem_enum (fun k => JSMath.within 0.2 0.94
             (JSMath.Math_round ((JSMath.ofZ k / 100 + 0.2) * 100) / 100)%float)
             75 seed Hs); [lia | vm_compute; reflexivity].
  - apply (rem_enum (fun k => JSMath.within (-12) (-5)
             (JSMath.Math_round ((-12 + JSMath.ofZ k) * 10) / 10)%float)
             8 seed Hs); [lia | vm_compute; reflexivity].
Qed.

(** X15: with fallback metrics attached, whatever the playlist
    identifier, the engine's derived parameters are moderate: both
    engine sources compute the same spawn interval, between 400 and
    866.67 ms; the speed multiplier lies in [0.61, 1.83]; and the gravity
    factor [1.2 - avgAcousticness * 0.7] lies in [0.71, 1.13]. *)
Theorem fallback_metrics_drive_the_engine
    (config : GameConfiguration) (playlistId : Index.jsString) :
  metrics config = Some (SpotifyAnalyze.generateFallbackMetrics playlistId) ->
  Engine.getMusicSpawnRate config = AssetEngine.getMusicSpawnRate config /\
  JSMath.within 400 866.67 (Engine.getMusicSpawnRate config) = true /\
  JSMath.within 0.61 1.83 (Engine.getMusicSpeedMultiplier config) = true /\
  JSMath.within 0.71 1.13
    (1.2 - avgAcousticness
             (SpotifyAnalyze.generateFallbackMetrics playlistId) * 0.7)%float = true.
Proof.
  intros Hm.
  unfold Engine.getMusicSpawnRate, AssetEngine.getMusicSpawnRate,
    Engine.getMusicSpeedMultiplier, AssetEngine.getBeatMs, AssetEngine.getBpm.
  rewrite Hm. clear Hm. unfold SpotifyAnalyze.generateFallbackMetrics.
  pose proof (seedOf_nonneg playlistId) as Hs.
  generalize dependent (SpotifyAnalyze.seedOf playlistId). intros seed Hs.
  unfold SpotifyAnalyze.metricsOfSeed.
  cbn [option_map JS.or_else avgTempo avgEnergy avgAcousticness].
  set (tempo := fun k => JSMath.Math_round (90 + JSMath.ofZ k)%float).
  set (energy := fun k =>
         (JSMath.Math_round ((JSMath.ofZ k / 100 + 0.2) * 100) / 100)%float).
  repeat split.
  - apply Leibniz.eqb_spec.
    apply (rem_enum
             (fun k => Leibniz.eqb
                (JS.Math_max 400 (JS.Math_min 3000
                   (60000 / tempo k * (1.5 - energy k))))%float
                (JS.Math_max 400 (JS.Math_min 3000
                   (60000 / (if JS.truthy (tempo k) then tempo k else 120)
                    * (1.5 - energy k))))%float)
             80 seed Hs); [lia | vm_compute; reflexivity].
  - apply (rem_enum
             (fun k => JSMath.within 400 866.67
                (JS.Math_max 400 (JS.Math_min 3000
                   (60000 / tempo k * (1.5 - energy k))))%float)
             80 seed Hs); [lia | vm_compute; reflexivity].
  - apply (rem_enum
             (fun k => JSMath.within 0.61 1.83
                (tempo k / 120 * (0.7 + energy k * 0.6))%float)
             80 seed Hs); [lia | vm_compute; reflexivity].
  - apply (rem_enum
             (fun k => JSMath.within 0.71 1.13
                (1.2 - JSMath.Math_round ((JSMath.ofZ k / 100 + 0.1) * 100) / 100
                       * 0.7)%float)
             60 seed Hs); [lia | vm_compute; reflexivity].
Qed.

Lemma fallback_metrics_drive_the_engine_witness :
  let m := SpotifyAnalyze.generateFallbackMetrics (Index.lit "37i9dQZF1DXcBWIGoYBM5M") in
  let config := Index.attachMetrics Samples.bare m in
  metrics config = Some m /\
  JSMath.within 400 866.67 (Engine.getMusicSpawnRate config) = true.
Proof.
  intros m config. split; [reflexivity|].
  apply (fallback_metrics_drive_the_engine config
           (Index.lit "37i9dQZF1DXcBWIGoYBM5M")).
  reflexivity.
Defined.

(* ================================================================= *)
(** * Clamping in general *)

(** [Math.max(lo, Math.min(hi, x))] of a number lies between the bounds. *)
Lemma max_min_within (lo hi x : float) :
  PrimFloat.leb lo hi = true -> PrimFloat.is_nan x = false ->
  JSMath.within lo hi (JS.Math_max lo (JS.Math_min hi x)) = true.
Proof.
  intros Hlh Hx.
  assert (Hlo : PrimFloat.is_nan lo = false).
  { destruct (PrimFloat.is_nan lo) eqn:E; [|reflexivity].
    apply is_nan_Prim2SF in E. apply leb_SFcompare in Hlh. rewrite E in Hlh.
    destruct Hlh; discriminate. }
  assert (Hhi : PrimFloat.is_nan hi = false).
  { destruct (PrimFloat.is_nan hi) eqn:E; [|reflexivity].
    apply is_nan_Prim2SF in E. apply leb_SFcompare in Hlh. rewrite E in Hlh.
    destruct (Prim2SF lo); destruct Hlh; discriminate. }
  destruct (Math_min_spec hi x Hhi Hx) as (Hmin & Hle & _).
  assert (Hn : PrimFloat.is_nan (JS.Math_min hi x) = false)
    by (destruct Hmin as [-> | ->]; assumption).
  destruct (Math_max_spec lo (JS.Math_min hi x) Hlo Hn) as (Hmax & Hge & _).
  unfold JSMath.within. rewrite Hge. simpl.
  destruct Hmax as [-> | ->]; assumption.
Qed.

Lemma within_not_nan (lo hi x : float) :
  JSMath.within lo hi x = true -> PrimFloat.is_nan x = false.
Proof.
  unfold JSMath.within. intros H. apply andb_true_iff in H as [H _].
  destruct (PrimFloat.is_nan x) eqn:E; [|reflexivity].
  apply is_nan_Prim2SF in E. apply leb_SFcompare in H. rewrite E in H.
  destruct (Prim2SF lo); destruct H; discriminate.
Qed.

(** A positive finite number has its sign bit clear. *)
Lemma get_sign_finite (x : float) (m : positive) (e : Z) :
  Prim2SF x = S754_finite false m e -> PrimFloat.get_sign x = false.
Proof.
  intros P. unfold PrimFloat.get_sign, PrimFloat.is_zero.
  rewrite eqb_spec. unfold SFeqb.
  change (Prim2SF PrimFloat.zero) with (S754_zero false). rewrite P.
  cbn [SFcompare]. rewrite ltb_spec. unfold SFltb.
  change (Prim2SF PrimFloat.zero) with (S754_zero false). now rewrite P.
Qed.

(** Clamping a number already between two positive finite bounds gives
    the number back. *)
Lemma max_min_fixed (lo hi x : float) (ml mh : positive) (el eh : Z) :
  Prim2SF lo = S754_finite false ml el ->
  Prim2SF hi = S754_finite false mh eh ->
  JSMath.within lo hi x = true ->
  JS.Math_max lo (JS.Math_min hi x) = x.
Proof.
  intros Plo Phi Hw.
  pose proof (within_not_nan _ _ _ Hw) as Hx.
  unfold JSMath.within in Hw. apply andb_true_iff in Hw as [Hl Hh].
  assert (Hlo : PrimFloat.is_nan lo = false)
    by (apply is_nan_false; rewrite Plo; discriminate).
  assert (Hhi : PrimFloat.is_nan hi = false)
    by (apply is_nan_false; rewrite Phi; discriminate).
  pose proof (get_sign_finite _ _ _ Plo) as Slo.
  pose proof (get_sign_finite _ _ _ Phi) as Shi.
  assert (Hmin : JS.Math_min hi x = x).
  { unfold JS.Math_min. rewrite Hhi, Hx, Shi. cbn [orb].
    destruct (float_compare_cases hi x Hhi Hx)
      as [(E1 & E2 & _ & E4)|[(E1 & E2 & _)|(E1 & E2 & _)]];
      rewrite E1, ?E2; try reflexivity. congruence. }
  rewrite Hmin. unfold JS.Math_max. rewrite Hlo, Hx, Slo. cbn [orb].
  destruct (float_compare_cases lo x Hlo Hx)
    as [(E1 & E2 & _)|[(E1 & E2 & E3 & _)|(E1 & E2 & _ & _ & E5)]];
    rewrite E1, ?E2; try reflexivity; [congruence|].
  rewrite SFcompare_antisym in E5.
  destruct (SFcompare (Prim2SF x) (Prim2SF lo)) as [[]|] eqn:E6;
    try discriminate.
  symmetry. now apply (float_eq_finite x lo false ml el).
Qed.

(** A number that is at least 1 is truthy. *)
Lemma at_least_one_truthy (x : float) :
  PrimFloat.leb 1%float x = true -> JS.truthy x = true.
Proof.
  intros H. apply positive_is_truthy.
  apply leb_SFcompare in H. apply ltb_SFcompare.
  change (Prim2SF 1%float) with (S754_finite false 4503599627370496 (-52)) in H.
  change (Prim2SF 0%float) with (S754_zero false).
  destruct (Prim2SF x) as [[]|[]| |[] m e]; cbn [SFcompare] in *;
    destruct H; try discriminate; reflexivity.
Qed.

Section Clamps.
Import GeminiGenerate.

(** X16: after the generator's clamp block the difficulty is always in
    [1, 10], whatever was parsed; gravity, player speed and spawn rate
    are NaN exactly when the parsed value was, and otherwise lie in
    [0.5, 2], [100, 400] and [500, 3000]. *)
Theorem clampValues_ranges (c : GameConfiguration) :
  JSMath.within 1 10 (difficulty (clampValues c)) = true /\
  PrimFloat.is_nan (gravity (clampValues c)) = PrimFloat.is_nan (gravity c) /\
  PrimFloat.is_nan (playerSpeed (clampValues c))
    = PrimFloat.is_nan (playerSpeed c) /\
  PrimFloat.is_nan (spawnRateMs (clampValues c))
    = PrimFloat.is_nan (spawnRateMs c) /\
  (PrimFloat.is_nan (gravity c) = false ->
   JSMath.within 0.5 2 (gravity (clampValues c)) = true) /\
  (PrimFloat.is_nan (playerSpeed c) = false ->
   JSMath.within 100 400 (playerSpeed (clampValues c)) = true) /\
  (PrimFloat.is_nan (spawnRateMs c) = false ->
   JSMath.within 500 3000 (spawnRateMs (clampValues c)) = true).
Proof.
  assert (Hnan : forall lo hi x, PrimFloat.leb lo hi = true ->
            PrimFloat.is_nan (JS.Math_max lo (JS.Math_min hi x))
            = PrimFloat.is_nan x).
  { intros lo hi x Hlh. destruct (PrimFloat.is_nan x) eqn:Hx.
    - unfold JS.Math_min. rewrite Hx, orb_true_r.
      unfold JS.Math_max. now rewrite orb_true_r.
    - eapply within_not_nan. now apply max_min_within. }
  cbn [clampValues difficulty gravity playerSpeed spawnRateMs].
  repeat split; try (now apply Hnan); try (now apply max_min_within).
  apply max_min_within; [reflexivity|].
  unfold JS.or_else, JS.truthy.
  destruct (PrimFloat.is_nan (difficulty c)) eqn:E; cbn [orb negb]; [reflexivity|].
  now destruct (PrimFloat.is_zero (difficulty c)).
Qed.

(** X17: the clamp block is idempotent: clamping a clamped
    configuration changes nothing. *)
Theorem clampValues_idempotent (c : GameConfiguration) :
  clampValues (clampValues c) = clampValues c.
Proof.
  assert (Hfix : forall lo hi ml el mh eh x,
            Prim2SF lo = S754_finite false ml el ->
            Prim2SF hi = S754_finite false mh eh ->
            PrimFloat.leb lo hi = true ->
            JS.Math_max lo (JS.Math_min hi (JS.Math_max lo (JS.Math_min hi x)))
            = JS.Math_max lo (JS.Math_min hi x)).
  { intros lo hi ml el mh eh x Plo Phi Hlh.
    destruct (PrimFloat.is_nan x) eqn:Hx.
    - rewrite (Math_min_nan hi x Hx).
      rewrite (Math_max_nan lo PrimFloat.nan eq_refl).
      rewrite (Math_min_nan hi PrimFloat.nan eq_refl).
      now rewrite (Math_max_nan lo PrimFloat.nan eq_refl).
    - eapply max_min_fixed; eauto. now apply max_min_within. }
  assert (Hd : JSMath.within 1 10 (difficulty (clampValues c)) = true).
  { cbn [clampValues difficulty]. apply max_min_within; [reflexivity|].
    unfold JS.or_else, JS.truthy.
    destruct (PrimFloat.is_nan (difficulty c)) eqn:E; cbn [orb negb];
      [reflexivity|].
    now destruct (PrimFloat.is_zero (difficulty c)). }
  unfold clampValues in *.
  cbn [gameType title description gravity playerSpeed spawnRateMs difficulty
       colorPalette enemyTypes backgroundTheme musicInfluence metrics] in *.
  set (d := JS.Math_max 1%float
              (JS.Math_min 10%float (JS.or_else (Some (difficulty c)) 5%float)))
    in *.
  assert (Ht : JS.truthy d = true).
  { apply at_least_one_truthy. unfold JSMath.within in Hd.
    now apply andb_true_iff in Hd as [Hd _]. }
  f_equal.
  - eapply Hfix; reflexivity.
  - eapply Hfix; reflexivity.
  - eapply Hfix; reflexivity.
  - unfold JS.or_else at 1. rewrite Ht.
    eapply max_min_fixed; [reflexivity|reflexivity|exact Hd].
Qed.

End Clamps.

(* ================================================================= *)
(** * Sums and differences that are never NaN *)

Section Sums.
Local Open Scope Z_scope.

Lemma binary_round_not_nan (s : bool) (m : positive) (e : Z) :
  binary_round prec emax s m e <> S754_nan.
Proof.
  unfold binary_round.
  destruct (shl_align m e _) as [mz ez].
  destruct (binary_round_aux_signed s (Z.pos mz) ez loc_Exact ltac:(lia))
    as [H|[H|(m' & e' & H)]]; rewrite H; discriminate.
Qed.

Lemma binary_normalize_not_nan (m e : Z) (s : bool) :
  binary_normalize prec emax m e s <> S754_nan.
Proof.
  destruct m; simpl; [discriminate| |]; apply binary_round_not_nan.
Qed.

Lemma SFadd_finite_not_nan (x : spec_float) (s : bool) (m : positive) (e : Z) :
  x <> S754_nan ->
  SFadd prec emax x (S754_finite s m e) <> S754_nan /\
  SFadd prec emax (S754_finite s m e) x <> S754_nan.
Proof.
  intros Hx. destruct x as [sx|sx| |sx mx ex]; cbn [SFadd];
    try (split; discriminate); try congruence.
  split; apply binary_normalize_not_nan.
Qed.

Lemma SFsub_finite_not_nan (x : spec_float) (s : bool) (m : positive) (e : Z) :
  x <> S754_nan ->
  SFsub prec emax x (S754_finite s m e) <> S754_nan /\
  SFsub prec emax (S754_finite s m e) x <> S754_nan.
Proof.
  intros Hx. destruct x as [sx|sx| |sx mx ex]; cbn [SFsub];
    try (split; discriminate); try congruence.
  split; apply binary_normalize_not_nan.
Qed.

End Sums.

(** Arithmetic with a finite non-zero constant keeps a number a number. *)
Lemma add_const_not_nan (x c : float) (s : bool) (m : positive) (e : Z) :
  Prim2SF c = S754_finite s m e -> PrimFloat.is_nan x = false ->
  PrimFloat.is_nan (x + c)%float = false /\
  PrimFloat.is_nan (c + x)%float = false /\
  PrimFloat.is_nan (x - c)%float = false /\
  PrimFloat.is_nan (c - x)%float = false /\
  PrimFloat.is_nan (x * c)%float = false /\
  PrimFloat.is_nan (x / c)%float = false.
Proof.
  intros Hc Hx. apply is_nan_false in Hx.
  repeat split; apply is_nan_false;
    rewrite ?add_spec, ?sub_spec, ?mul_spec, ?div_spec, Hc;
    unfold SF64add, SF64sub, SF64mul, SF64div.
  - now apply SFadd_finite_not_nan.
  - now apply SFadd_finite_not_nan.
  - now apply SFsub_finite_not_nan.
  - now apply SFsub_finite_not_nan.
  - now apply SFmul_by_finite_not_nan.
  - now apply SFdiv_by_finite_not_nan.
Qed.

(* ================================================================= *)
(** * Rounding below a bound *)

Section RoundingBelow.
Local Open Scope Z_scope.

(** [shr_fexp] on a positive mantissa, at any exponent. *)
Lemma shr_fexp_gen (m e : Z) (l : location) :
  0 < m ->
  snd (shr_fexp prec emax m e l) = Z.max e (fexp prec emax (Zdigits2 m + e)) /\
  shr_m (fst (shr_fexp prec emax m e l))
    = m / 2 ^ (snd (shr_fexp prec emax m e l) - e).
Proof.
  intros Hm. unfold shr_fexp, shr. std_Z.
  assert (H0 : shr_m (shr_record_of_loc m l) = m)
    by (destruct l as [|[| |]]; reflexivity).
  destruct (fexp prec emax (Zdigits2 m + e) - e) as [|n|n] eqn:En;
    cbn [fst snd].
  - rewrite H0. replace (e - e) with 0 by lia.
    rewrite Z.pow_0_r, Z.div_1_r. split; lia.
  - rewrite iter_shr_1_m by lia. rewrite H0.
    replace (e + Z.pos n - e) with (Z.pos n) by lia. split; [lia | reflexivity].
  - rewrite H0. replace (e - e) with 0 by lia.
    rewrite Z.pow_0_r, Z.div_1_r. split; lia.
Qed.

Lemma shr_fexp_zero (e : Z) :
  shr_m (fst (shr_fexp prec emax 0 e loc_Exact)) = 0.
Proof.
  unfold shr_fexp, shr.
  destruct (IntDef.Z.sub _ e) as [|n|n]; cbn [fst]; try reflexivity.
  rewrite iter_shr_1_m by (simpl; lia). reflexivity.
Qed.

(** Rounding a value strictly below a normal number [mb * 2^eb] gives at
    most that number. *)
Lemma binary_round_aux_below (s : bool) (M E : Z) (mb : positive) (eb : Z) :
  0 < M -> E <= eb -> emin <= eb <= emax - prec ->
  2 ^ 52 <= Z.pos mb < 2 ^ 53 ->
  M < Z.pos mb * 2 ^ (eb - E) ->
  binary_round_aux prec emax s M E loc_Exact = S754_zero s \/
  exists m e,
    binary_round_aux prec emax s M E loc_Exact = S754_finite s m e /\
    (e < eb \/ (e = eb /\ Z.pos m <= Z.pos mb)).
Proof.
  intros HM HE Heb Hmb Hlt. unfold binary_round_aux.
  pose proof (shr_fexp_gen M E loc_Exact HM) as (He' & Hm1).
  destruct (shr_fexp prec emax M E loc_Exact) as [mrs' e'].
  cbn [fst snd] in He', Hm1.
  pose proof (round_nearest_even_bounds (shr_m mrs') (loc_of_shr_record mrs'))
    as Hr.
  set (m2 := round_nearest_even (shr_m mrs') (loc_of_shr_record mrs')) in *.
  set (m1 := shr_m mrs') in *.
  unfold fexp, SpecFloat.emin, emax, prec in *. std_Z.
  rewrite (Zdigits2_log2 M HM) in He'.
  assert (Hp1 : 0 < 2 ^ (eb - E)) by (apply Z.pow_pos_nonneg; lia).
  assert (HlogM : Z.log2 M < 53 + (eb - E)).
  { apply Z.log2_lt_pow2; [lia|]. rewrite Z.pow_add_r by lia. nia. }
  assert (F1 : e' <= eb) by lia.
  assert (F2 : 3 - 1024 - 53 <= e') by lia.
  assert (F0 : E <= e') by lia.
  assert (Hp2 : 0 < 2 ^ (e' - E)) by (apply Z.pow_pos_nonneg; lia).
  assert (Hp3 : 0 < 2 ^ (eb - e')) by (apply Z.pow_pos_nonneg; lia).
  assert (Hsplit : 2 ^ (eb - E) = 2 ^ (eb - e') * 2 ^ (e' - E)).
  { rewrite <- Z.pow_add_r by lia. f_equal. lia. }
  assert (F3 : 0 <= m1 < Z.pos mb * 2 ^ (eb - e')).
  { rewrite Hm1. split; [apply Z.div_pos; lia|].
    apply Z.div_lt_upper_bound; [lia|]. rewrite Hsplit in Hlt. nia. }
  assert (F4 : m1 < 2 ^ 53).
  { rewrite Hm1. apply Z.div_lt_upper_bound; [lia|].
    pose proof (Z.log2_spec M HM) as [_ Hup].
    apply Z.lt_le_trans with (1 := Hup).
    rewrite <- Z.pow_add_r by lia. apply Z.pow_le_mono_r; lia. }
  destruct (Z.eq_dec m2 0) as [Hz|Hnz].
  { rewrite Hz.
    pose proof (shr_fexp_zero e') as H0. unfold emax, prec in H0.
    destruct (shr_fexp 53 1024 0 e' loc_Exact) as [mrs'' e''].
    cbn [fst] in H0. rewrite H0. now left. }
  assert (Hm2 : 0 < m2) by lia.
  pose proof (shr_fexp_gen m2 e' loc_Exact Hm2) as (He'' & Hm'').
  unfold fexp, SpecFloat.emin, emax, prec in He'', Hm''.
  destruct (shr_fexp 53 1024 m2 e' loc_Exact) as [mrs'' e''].
  cbn [fst snd] in He'', Hm''. std_Z.
  rewrite (Zdigits2_log2 m2 Hm2) in He''.
  assert (Hlog2 : Z.log2 m2 <= 53).
  { destruct (Z.eq_dec m2 (2 ^ 53)) as [->|Hne].
    - rewrite Z.log2_pow2; lia.
    - assert (Z.log2 m2 < 53) by (apply Z.log2_lt_pow2; lia). lia. }
  assert (G1 : e' <= e'' <= e' + 1) by lia.
  assert (G2 : e'' <= eb).
  { destruct (Z.eq_dec e' eb) as [Heq|Hneq]; [|lia].
    assert (Hq : 2 ^ (eb - e') = 1)
      by (replace (eb - e') with 0 by lia; reflexivity).
    rewrite Hq in F3.
    assert (Z.log2 m2 < 53) by (apply Z.log2_lt_pow2; lia). lia. }
  assert (G3 : e'' = eb -> shr_m mrs'' <= Z.pos mb).
  { intros Heq. rewrite Hm''.
    destruct (Z.eq_dec e' eb) as [Heq'|Hneq'].
    - assert (Hq : 2 ^ (eb - e') = 1)
        by (replace (eb - e') with 0 by lia; reflexivity).
      rewrite Hq in F3.
      replace (e'' - e') with 0 by lia. rewrite Z.pow_0_r, Z.div_1_r. lia.
    - replace (e'' - e') with 1 by lia. rewrite Z.pow_1_r.
      assert (m2 / 2 <= 2 ^ 53 / 2) by (apply Z.div_le_mono; lia).
      change (2 ^ 53 / 2) with (2 ^ 52) in *. lia. }
  assert (G4 : 0 <= shr_m mrs'').
  { rewrite Hm''. apply Z.div_pos; [lia|]. apply Z.pow_pos_nonneg; lia. }
  destruct (shr_m mrs'') as [|p|p]; [now left| |lia].
  right. exists p, e''.
  assert (Hle : (e'' <=? 1024 - 53) = true) by (apply Z.leb_le; lia).
  rewrite Hle. split; [reflexivity|].
  destruct (Z.eq_dec e'' eb); [right|left]; lia.
Qed.

End RoundingBelow.

(* ================================================================= *)
(** * Percentages *)

Section Percent.
Local Open Scope Z_scope.

Lemma SFcompare_finite_le_intro (m1 m2 : positive) (e1 e2 : Z) :
  e1 < e2 \/ (e1 = e2 /\ Z.pos m1 <= Z.pos m2) ->
  SFleb (S754_finite false m1 e1) (S754_finite false m2 e2) = true.
Proof.
  unfold SFleb. cbn [SFcompare]. std_Z.
  rewrite Pos.compare_cont_spec. simpl Pos.switch_Eq.
  destruct (Z.compare_spec e1 e2) as [He|He|He]; intros [H|[H1 H2]];
    try lia; try reflexivity.
  destruct (Pos.compare_spec m1 m2); try reflexivity; lia.
Qed.

(** A valid finite number above the subnormal range has a full
    mantissa. *)
Lemma valid_finite_normal (s : bool) (m : positive) (e : Z) :
  valid_binary (S754_finite s m e) = true -> emin < e -> 2 ^ 52 <= Z.pos m.
Proof.
  unfold SpecFloat.valid_binary, bounded, canonical_mantissa, fexp.
  intros H He. apply andb_true_iff in H as [Hc _]. std_Z.
  apply Z.eqb_eq in Hc.
  change (Z.pos (digits2_pos m)) with (Zdigits2 (Z.pos m)) in Hc.
  rewrite Zdigits2_log2 in Hc by lia.
  unfold prec, SpecFloat.emin, emax in *.
  assert (Hl : Z.log2 (Z.pos m) = 52) by lia.
  pose proof (Z.log2_spec (Z.pos m) ltac:(lia)) as [Hlo _].
  now rewrite Hl in Hlo.
Qed.

(** A number in [0, 1] times 100 lies in [0, 100]. *)
Lemma mul_100_within (y : float) :
  JSMath.within 0 1 y = true -> JSMath.within 0 100 (y * 100) = true.
Proof.
  unfold JSMath.within. intros H. apply andb_true_iff in H as [H0 H1].
  apply leb_SFcompare in H0, H1.
  pose proof (Prim2SF_valid y) as Hv.
  rewrite !leb_spec, mul_spec. unfold SF64mul.
  change (Prim2SF 0%float) with (S754_zero false) in *.
  change (Prim2SF 1%float) with (S754_finite false 4503599627370496 (-52)) in H1.
  change (Prim2SF 100%float) with (S754_finite false 7036874417766400 (-46)).
  destruct (Prim2SF y) as [s|s| |s m e].
  - now destruct s.
  - destruct s; cbn [SFcompare] in H0, H1; destruct H0, H1; discriminate.
  - cbn [SFcompare] in H0. destruct H0; discriminate.
  - assert (s = false) as ->
      by (destruct s; cbn [SFcompare] in H0; destruct H0; congruence).
    apply SFcompare_finite_le in H1.
    apply valid_finite_bounds in Hv as [He Hm].
    cbn [SFmul xorb]. std_Z.
    assert (Hcase : (e = -52 /\ m = 4503599627370496%positive) \/
                    Z.pos m < 2 ^ (- e)).
    { destruct H1 as [Hlt|[-> Hle]].
      - right. apply Z.lt_le_trans with (1 := Hm).
        apply Z.pow_le_mono_r; lia.
      - change (2 ^ (- -52)) with 4503599627370496.
        destruct (Z.eq_dec (Z.pos m) 4503599627370496) as [Hm1|Hm1];
          [left; split; [reflexivity | congruence] | right; lia]. }
    destruct Hcase as [[-> ->]|Hlt].
    + vm_compute. reflexivity.
    + destruct (binary_round_aux_below false
                  (Z.pos (m * 7036874417766400)) (e + -46)
                  7036874417766400 (-46))
        as [Hr|(m' & e' & Hr & Hb)];
        try (unfold emax, prec, SpecFloat.emin; lia).
      * replace (-46 - (e + -46))%Z with (- e)%Z by lia.
        rewrite Pos2Z.inj_mul. nia.
      * rewrite Hr. reflexivity.
      * rewrite Hr. rewrite (SFcompare_finite_le_intro _ _ _ _ Hb).
        reflexivity.
Qed.

(** [Math.round] of a positive number with a fraction: the nearest
    integer, as a number. *)
Lemma Math_round_fraction (P : float -> bool) (z : float)
    (m : positive) (e lo : Z) (len : nat) :
  Prim2SF z = S754_finite false m e -> e < 0 ->
  0 <= lo ->
  lo <= (Z.pos m + 2 ^ (- e - 1)) / 2 ^ (- e) < lo + Z.of_nat len ->
  (lo = 0 -> P 0%float = true) ->
  forallb (fun k => P (SF2Prim (binary_normalize prec emax
                                  (lo + Z.of_nat k) 0 false)))
          (seq 0 len) = true ->
  P (JSMath.Math_round z) = true.
Proof.
  intros Hz He Hlo Hn H0 Hall. unfold JSMath.Math_round. rewrite Hz.
  assert (Hneg : (0 <=? e) = false) by (apply Z.leb_gt; lia).
  rewrite Hneg. cbv zeta. rewrite Z.shiftr_div_pow2 by lia.
  set (n := (Z.pos m + 2 ^ (- e - 1)) / 2 ^ (- e)) in *.
  destruct (n =? 0) eqn:En; [apply H0; apply Z.eqb_eq in En; lia|].
  rewrite forallb_forall in Hall.
  specialize (Hall (Z.to_nat (n - lo))).
  rewrite Z2Nat.id in Hall by lia.
  replace (lo + (n - lo)) with n in Hall by lia.
  apply Hall, in_seq. lia.
Qed.

(** [Math.round] of a number in [0, 100] is zero of either sign or one
    of the integers 1 to 100. *)
Lemma Math_round_percent (P : float -> bool) (z : float) :
  P 0%float = true -> (Prim2SF z = S754_zero true -> P (-0)%float = true) ->
  forallb (fun k => P (SF2Prim (binary_normalize prec emax
                                  (0 + Z.of_nat k) 0 false)))
          (seq 0 101) = true ->
  JSMath.within 0 100 z = true ->
  P (JSMath.Math_round z) = true.
Proof.
  intros H0 Hm0 Hall Hw.
  unfold JSMath.within in Hw. apply andb_true_iff in Hw as [Hlo Hhi].
  apply leb_SFcompare in Hlo, Hhi.
  pose proof (Prim2SF_valid z) as Hv.
  change (Prim2SF 0%float) with (S754_zero false) in *.
  change (Prim2SF 100%float) with (S754_finite false 7036874417766400 (-46))
    in Hhi.
  destruct (Prim2SF z) as [s|s| |s m e] eqn:Hz.
  - unfold JSMath.Math_round. rewrite Hz.
    rewrite <- (SF2Prim_Prim2SF z), Hz.
    destruct s; [now apply Hm0 | exact H0].
  - destruct s; cbn [SFcompare] in Hlo, Hhi; destruct Hlo, Hhi; discriminate.
  - cbn [SFcompare] in Hlo. destruct Hlo; discriminate.
  - assert (s = false) as ->
      by (destruct s; cbn [SFcompare] in Hlo; destruct Hlo; congruence).
    apply SFcompare_finite_le in Hhi.
    apply valid_finite_bounds in Hv as [He Hm].
    apply (Math_round_fraction P z m e 0 101 Hz); try assumption; try lia;
      [|intros _; exact H0].
    assert (Hp : 0 < 2 ^ (- e)) by (apply Z.pow_pos_nonneg; lia).
    assert (Hh : 0 < 2 ^ (- e - 1)) by (apply Z.pow_pos_nonneg; lia).
    split; [apply Z.div_pos; lia|].
    apply Z.div_lt_upper_bound; [lia|].
    destruct Hhi as [Hlt|[-> Hle]].
    + set (q := 2 ^ (- e - 47)).
      assert (Hq : 0 < q) by (apply Z.pow_pos_nonneg; lia).
      assert (E1 : 2 ^ (- e) = 2 ^ 47 * q).
      { unfold q. rewrite <- Z.pow_add_r by lia. f_equal. lia. }
      assert (E2 : 2 ^ (- e - 1) = 2 ^ 46 * q).
      { unfold q. rewrite <- Z.pow_add_r by lia. f_equal. lia. }
      rewrite E1, E2. change (2 ^ 53) with 9007199254740992 in Hm.
      change (2 ^ 47) with 140737488355328.
      change (2 ^ 46) with 70368744177664. lia.
    + change (2 ^ (- -46)) with 70368744177664.
      change (2 ^ (- -46 - 1)) with 35184372088832. lia.
Qed.

(** [Math.round] of a number in [60, 200] is one of the integers 60 to
    200. *)
Lemma Math_round_tempo (P : float -> bool) (z : float) :
  forallb (fun k => P (SF2Prim (binary_normalize prec emax
                                  (60 + Z.of_nat k) 0 false)))
          (seq 0 141) = true ->
  JSMath.within 60 200 z = true ->
  P (JSMath.Math_round z) = true.
Proof.
  intros Hall Hw.
  unfold JSMath.within in Hw. apply andb_true_iff in Hw as [Hlo Hhi].
  apply leb_SFcompare in Hlo, Hhi.
  pose proof (Prim2SF_valid z) as Hv.
  change (Prim2SF 60%float) with (S754_finite false 8444249301319680 (-47))
    in Hlo.
  change (Prim2SF 200%float) with (S754_finite false 7036874417766400 (-45))
    in Hhi.
  destruct (Prim2SF z) as [s|s| |s m e] eqn:Hz.
  - cbn [SFcompare] in Hlo. destruct Hlo; discriminate.
  - destruct s; cbn [SFcompare] in Hlo, Hhi; destruct Hlo, Hhi; discriminate.
  - cbn [SFcompare] in Hlo. destruct Hlo; discriminate.
  - assert (s = false) as ->
      by (destruct s; cbn [SFcompare] in Hlo; destruct Hlo; congruence).
    apply SFcompare_finite_le in Hlo, Hhi.
    pose proof (valid_finite_normal _ _ _ Hv) as Hn.
    apply valid_finite_bounds in Hv as [He Hm].
    unfold SpecFloat.emin, emax, prec in *.
    specialize (Hn ltac:(lia)).
    change (2 ^ 53) with 9007199254740992 in Hm.
    change (2 ^ 52) with 4503599627370496 in Hn.
    apply (Math_round_fraction P z m e 60 141 Hz); try lia; [|exact Hall].
    assert (Hcase : e = -47 \/ e = -46 \/ e = -45) by lia.
    destruct Hcase as [->|[->| ->]].
    + change (2 ^ (- -47)) with 140737488355328.
      change (2 ^ (- -47 - 1)) with 70368744177664.
      split; [apply Z.div_le_lower_bound | apply Z.div_lt_upper_bound]; lia.
    + change (2 ^ (- -46)) with 70368744177664.
      change (2 ^ (- -46 - 1)) with 35184372088832.
      split; [apply Z.div_le_lower_bound | apply Z.div_lt_upper_bound]; lia.
    + change (2 ^ (- -45)) with 35184372088832.
      change (2 ^ (- -45 - 1)) with 17592186044416.
      split; [apply Z.div_le_lower_bound | apply Z.div_lt_upper_bound]; lia.
Qed.

End Percent.

(* ================================================================= *)
(** * The estimated metrics *)

Section Estimation.
Import SpotifyAnalyze.

Lemma Math_min_not_nan (a b : float) :
  PrimFloat.is_nan a = false -> PrimFloat.is_nan b = false ->
  PrimFloat.is_nan (JS.Math_min a b) = false.
Proof.
  intros Ha Hb. destruct (Math_min_spec a b Ha Hb) as ([-> | ->] & _);
    assumption.
Qed.

Lemma Math_max_not_nan (a b : float) :
  PrimFloat.is_nan a = false -> PrimFloat.is_nan b = false ->
  PrimFloat.is_nan (JS.Math_max a b) = false.
Proof.
  intros Ha Hb. destruct (Math_max_spec a b Ha Hb) as ([-> | ->] & _);
    assumption.
Qed.

(** One step of showing that an expression built from a number and
    finite constants is not NaN. *)
Ltac nan_step :=
  match goal with
  | |- PrimFloat.is_nan (JS.Math_min _ _) = false => apply Math_min_not_nan
  | |- PrimFloat.is_nan (JS.Math_max _ _) = false => apply Math_max_not_nan
  | |- PrimFloat.is_nan (?x + ?c)%float = false =>
      first [ refine (proj1 (add_const_not_nan x c _ _ _ eq_refl _))
            | refine (proj1 (proj2 (add_const_not_nan c x _ _ _ eq_refl _))) ]
  | |- PrimFloat.is_nan (?x - ?c)%float = false =>
      first [ refine (proj1 (proj2 (proj2 (add_const_not_nan x c _ _ _ eq_refl _))))
            | refine (proj1 (proj2 (proj2 (proj2
                      (add_const_not_nan c x _ _ _ eq_refl _))))) ]
  | |- PrimFloat.is_nan (?x * ?c)%float = false =>
      refine (proj1 (proj2 (proj2 (proj2 (proj2
                (add_const_not_nan x c _ _ _ eq_refl _))))))
  | |- PrimFloat.is_nan (?x / ?c)%float = false =>
      refine (proj2 (proj2 (proj2 (proj2 (proj2
                (add_const_not_nan x c _ _ _ eq_refl _))))))
  | |- PrimFloat.is_nan _ = false => first [assumption | reflexivity]
  end.

Ltac split_ifs :=
  repeat match goal with
         | |- context [if ?b then _ else _] => destruct b
         end.

(** The estimates are numbers whenever the averages are. *)
Lemma estimates_not_nan (avgPop avgDur explicitRatio : float) (g : GenreFlags) :
  PrimFloat.is_nan avgPop = false -> PrimFloat.is_nan avgDur = false ->
  PrimFloat.is_nan (tempoEst avgDur g) = false /\
  PrimFloat.is_nan (energyEst avgPop explicitRatio g) = false /\
  PrimFloat.is_nan (valenceEst avgPop explicitRatio g) = false /\
  PrimFloat.is_nan (acousticnessEst avgPop g) = false /\
  PrimFloat.is_nan (danceabilityEst avgPop g) = false.
Proof.
  intros Hp Hd.
  unfold tempoEst, energyEst, valenceEst, acousticnessEst, danceabilityEst.
  cbv zeta.
  repeat split; split_ifs; repeat nan_step.
Qed.

(** [clamp01] of a number is a number of [0, 1]. *)
Lemma clamp01_within (v : float) :
  PrimFloat.is_nan v = false -> JSMath.within 0 1 (clamp01 v) = true.
Proof.
  intros Hv. unfold clamp01.
  apply (Math_round_percent (fun r => JSMath.within 0 1 (r / 100))).
  - reflexivity.
  - intros _. reflexivity.
  - vm_compute. reflexivity.
  - apply mul_100_within. now apply max_min_within.
Qed.

(** The reported tempo of a number is a whole number of [60, 200]. *)
Lemma tempo_within (t : float) :
  PrimFloat.is_nan t = false ->
  let tempo :=
    JSMath.Math_round (JS.Math_max 60%float (JS.Math_min 200%float t)) in
  JSMath.within 60 200 tempo = true /\ JSMath.Math_round tempo = tempo.
Proof.
  intros Ht tempo.
  assert (H : JSMath.within 60 200 tempo
              && Leibniz.eqb (JSMath.Math_round tempo) tempo = true).
  { apply (Math_round_tempo
             (fun r => JSMath.within 60 200 r
                       && Leibniz.eqb (JSMath.Math_round r) r)).
    - vm_compute. reflexivity.
    - now apply max_min_within. }
  apply andb_true_iff in H as [H1 H2]. split; [exact H1|].
  now apply Leibniz.eqb_spec.
Qed.

(** X18: when the track averages are numbers, the estimated metrics are
    in range whatever the genres: the tempo is a whole number of BPM in
    [60, 200] and energy, valence, acousticness and danceability lie in
    [0, 1]. *)
Theorem estimateMetrics_in_range
    (name image : string) (count : JS.number)
    (tracks : list Track) (g : GenreFlags) :
  PrimFloat.is_nan (avgPopOf tracks) = false ->
  PrimFloat.is_nan (avgDurOf tracks) = false ->
  let m := estimateMetrics name image count tracks g in
  JSMath.within 60 200 (avgTempo m) = true /\
  JSMath.Math_round (avgTempo m) = avgTempo m /\
  JSMath.within 0 1 (avgEnergy m) = true /\
  JSMath.within 0 1 (avgValence m) = true /\
  JSMath.within 0 1 (avgAcousticness m) = true /\
  JSMath.within 0 1 (avgDanceability m) = true.
Proof.
  intros Hp Hd m. subst m. unfold estimateMetrics.
  cbn [avgTempo avgEnergy avgValence avgAcousticness avgDanceability].
  destruct (estimates_not_nan (avgPopOf tracks) (avgDurOf tracks)
              (explicitRatioOf tracks) g Hp Hd) as (Ht & He & Hv & Ha & Hdn).
  destruct (tempo_within _ Ht) as [T1 T2].
  repeat split; try assumption; now apply clamp01_within.
Qed.

Lemma estimateMetrics_in_range_witness :
  let tracks := [mkTrack (Some 80%float) (Some 210000%float) true;
                 mkTrack None (Some 185000%float) false] in
  let g := mkFlags true false false false true false false in
  PrimFloat.is_nan (avgPopOf tracks) = false /\
  JSMath.within 60 200
    (avgTempo (estimateMetrics "Mix" "" 2%float tracks g)) = true.
Proof.
  intros tracks g. split; [reflexivity|].
  apply (estimateMetrics_in_range "Mix" "" 2%float tracks g); reflexivity.
Defined.

(** The clamped value times 100 is never the negative zero. *)
Lemma clamped_percent_sign (v : float) :
  PrimFloat.is_nan v = false ->
  Prim2SF (JS.Math_max 0 (JS.Math_min 1 v) * 100)%float <> S754_zero true.
Proof.
  intros Hv.
  pose proof (Math_min_not_nan 1%float v eq_refl Hv) as Hx.
  set (x := JS.Math_min 1%float v) in *.
  unfold JS.Math_max. rewrite Hx.
  change (PrimFloat.is_nan 0%float) with false.
  change (PrimFloat.get_sign 0%float) with false. cbn [orb].
  destruct (PrimFloat.ltb 0%float x) eqn:Hpos.
  - apply ltb_SFcompare in Hpos.
    change (Prim2SF 0%float) with (S754_zero false) in Hpos.
    rewrite mul_spec. unfold SF64mul.
    change (Prim2SF 100%float) with (S754_finite false 7036874417766400 (-46)).
    destruct (Prim2SF x) as [s|[]| |[] m e]; cbn [SFcompare] in Hpos;
      try discriminate.
    cbn [SFmul xorb].
    destruct (binary_round_aux_signed false
                (Z.pos (m * 7036874417766400)) (e + -46) loc_Exact
                ltac:(lia)) as [H|[H|(m' & e' & H)]];
      std_Z; rewrite H; discriminate.
  - destruct (PrimFloat.ltb x 0%float); vm_compute; discriminate.
Qed.

(** X20: [clamp01] is idempotent: a value it returned is returned
    unchanged, NaN included. *)
Theorem clamp01_idempotent (v : float) :
  clamp01 (clamp01 v) = clamp01 v.
Proof.
  destruct (PrimFloat.is_nan v) eqn:Hv.
  - apply is_nan_eq in Hv. subst v. reflexivity.
  - apply Leibniz.eqb_spec. unfold clamp01 at 2 3.
    apply (Math_round_percent
             (fun r => Leibniz.eqb (clamp01 (r / 100)%float) (r / 100)%float)).
    + reflexivity.
    + intros Hz. now apply clamped_percent_sign in Hz.
    + vm_compute. reflexivity.
    + apply mul_100_within. now apply max_min_within.
Qed.

(* ================================================================= *)
(** * Averages over the tracks *)

Lemma SFadd_nonneg (x y : spec_float) :
  nonneg_spec x -> nonneg_spec y -> nonneg_spec (SFadd prec emax x y).
Proof.
  intros [->|[->|(mx & ex & ->)]] [->|[->|(my & ey & ->)]];
    cbn [SFadd]; unfold nonneg_spec; eauto 6.
  cbn [cond_Zopp]. std_Z. cbn [Z.add binary_normalize].
  unfold binary_round.
  destruct (shl_align _ _ _) as [mz ez].
  apply binary_round_aux_nonneg_spec. lia.
Qed.

Lemma or_else_nonneg (v : option float) (d : float) :
  nonNegative v = true -> nonneg_spec (Prim2SF d) ->
  nonneg_spec (Prim2SF (JS.or_else v d)).
Proof.
  intros Hv Hd. destruct v as [p|]; [|exact Hd]. cbn [JS.or_else].
  destruct (JS.truthy p) eqn:Ht; [|exact Hd].
  unfold JS.truthy in Ht. apply negb_true_iff, orb_false_iff in Ht as [Hn Hz].
  cbn [nonNegative] in Hv. apply negb_true_iff in Hv.
  unfold PrimFloat.is_zero in Hz. rewrite eqb_spec in Hz.
  rewrite ltb_spec in Hv. apply is_nan_false in Hn.
  unfold SFeqb in Hz. unfold SFltb in Hv.
  change (Prim2SF PrimFloat.zero) with (S754_zero false) in Hz.
  change (Prim2SF 0%float) with (S754_zero false) in Hv.
  unfold nonneg_spec.
  destruct (Prim2SF p) as [s|[]| |[] m e]; cbn [SFcompare] in Hz, Hv;
    try discriminate; try congruence; eauto.
Qed.

Lemma sum_nonneg (field : Track -> option float) (d : float)
    (tracks : list Track) (acc : float) :
  nonneg_spec (Prim2SF d) -> nonneg_spec (Prim2SF acc) ->
  forallb (fun t => nonNegative (field t)) tracks = true ->
  nonneg_spec
    (Prim2SF (fold_left (fun s t => s + JS.or_else (field t) d)%float tracks acc)).
Proof.
  intros Hd. revert acc.
  induction tracks as [|t tracks IH]; intros acc Hacc Hall; [exact Hacc|].
  cbn [forallb] in Hall. apply andb_true_iff in Hall as [Ht Hall].
  cbn [fold_left]. apply IH; [|exact Hall].
  rewrite add_spec. apply SFadd_nonneg; [exact Hacc|].
  now apply or_else_nonneg.
Qed.

(** The number of tracks, 1 to 50, is a positive finite number. *)
Lemma track_count_finite (n : nat) :
  1 <= n <= 50 ->
  exists m e, Prim2SF (JSMath.ofZ (Z.of_nat n)) = S754_finite false m e.
Proof.
  intros Hn.
  assert (Hall : forallb
            (fun k => match Prim2SF (JSMath.ofZ (Z.of_nat (S k))) with
                      | S754_finite false _ _ => true
                      | _ => false
                      end) (seq 0 50) = true) by (vm_compute; reflexivity).
  rewrite forallb_forall in Hall. specialize (Hall (pred n)).
  replace (S (pred n)) with n in Hall by lia.
  destruct (Prim2SF (JSMath.ofZ (Z.of_nat n))) as [| | |[] m e];
    try (discriminate Hall; apply in_seq; lia); eauto.
  all: exfalso; assert (Hin : In (pred n) (seq 0 50)) by (apply in_seq; lia);
    specialize (Hall Hin); discriminate.
Qed.

(** An average over 1 to 50 tracks without negative values is a
    number. *)
Lemma average_not_nan (field : Track -> option float) (d : float)
    (tracks : list Track) :
  nonneg_spec (Prim2SF d) -> 1 <= List.length tracks <= 50 ->
  forallb (fun t => nonNegative (field t)) tracks = true ->
  PrimFloat.is_nan (average field d tracks) = false.
Proof.
  intros Hd Hlen Hall. unfold average. apply is_nan_false.
  rewrite div_spec.
  destruct (track_count_finite _ Hlen) as (m & e & ->).
  apply SFdiv_by_finite_not_nan.
  pose proof (sum_nonneg field d tracks 0%float Hd
                (or_introl eq_refl) Hall) as [H|[H|(m' & e' & H)]];
    rewrite H; discriminate.
Qed.

(* ================================================================= *)
(** * From the analysis to the engine *)

(** A rounded percentage over 100 lies in [0, 1]. *)
Lemma percent_within (z : float) :
  JSMath.within 0 100 z = true ->
  JSMath.within 0 1 (JSMath.Math_round z / 100) = true.
Proof.
  intros Hz.
  apply (Math_round_percent (fun r => JSMath.within 0 1 (r / 100)));
    [reflexivity | intros _; reflexivity | vm_compute; reflexivity | exact Hz].
Qed.

(** The gravity factor for a rounded percentage. *)
Lemma gravity_factor_within (z : float) :
  JSMath.within 0 100 z = true ->
  JSMath.within 0.5 1.2 (1.2 - JSMath.Math_round z / 100 * 0.7) = true.
Proof.
  intros Hz.
  apply (Math_round_percent
           (fun r => JSMath.within 0.5 1.2 (1.2 - r / 100 * 0.7)));
    [reflexivity | intros _; reflexivity | vm_compute; reflexivity | exact Hz].
Qed.

(** The spawn interval and the speed multiplier for a whole tempo of
    [60, 200] and an energy that is a rounded percentage. *)
Lemma rounded_envelope (zt ze : float) :
  JSMath.within 60 200 zt = true -> JSMath.within 0 100 ze = true ->
  let tempo := JSMath.Math_round zt in
  let energy := (JSMath.Math_round ze / 100)%float in
  JS.truthy tempo = true /\
  JSMath.Math_round tempo = tempo /\
  JSMath.within 60 200 tempo = true /\
  JSMath.within 400 1500
    (JS.Math_max 400 (JS.Math_min 3000 (60000 / tempo * (1.5 - energy))))%float
  = true /\
  JSMath.within 0.35 2.17 (tempo / 120 * (0.7 + energy * 0.6)) = true.
Proof.
  intros Ht He tempo energy.
  set (Q := fun t e : float =>
         JS.truthy t && Leibniz.eqb (JSMath.Math_round t) t
         && JSMath.within 60 200 t
         && JSMath.within 400 1500
              (JS.Math_max 400 (JS.Math_min 3000 (60000 / t * (1.5 - e))))%float
         && JSMath.within 0.35 2.17 (t / 120 * (0.7 + e * 0.6))).
  assert (Hall : forallb
            (fun k => Q (SF2Prim (binary_normalize prec emax
                                    (60 + Z.of_nat k) 0 false)) energy)
            (seq 0 141) = true).
  { apply (Math_round_percent
             (fun r => forallb
                (fun k => Q (SF2Prim (binary_normalize prec emax
                                        (60 + Z.of_nat k) 0 false))
                            (r / 100)%float)
                (seq 0 141)));
      [vm_compute; reflexivity | intros _; vm_compute; reflexivity
      | vm_compute; reflexivity | exact He]. }
  pose proof (Math_round_tempo (fun r => Q r energy) zt Hall Ht) as H.
  unfold Q in H. fold tempo in H.
  repeat (apply andb_true_iff in H as [H ?]).
  repeat split; try assumption. now apply Leibniz.eqb_spec.
Qed.

(** Metrics whose tempo is a rounded number of [60, 200] and whose four
    ratios are rounded percentages keep the engine in its envelope. *)
Lemma rounded_metrics_envelope
    (name image : string) (count loudness zt ze zv za zd : float)
    (cfg : GameConfiguration) :
  JSMath.within 60 200 zt = true -> JSMath.within 0 100 ze = true ->
  JSMath.within 0 100 zv = true -> JSMath.within 0 100 za = true ->
  JSMath.within 0 100 zd = true ->
  let m := mkMetrics name image count (JSMath.Math_round zt)
             (JSMath.Math_round ze / 100)%float
             (JSMath.Math_round zv / 100)%float
             (JSMath.Math_round za / 100)%float
             (JSMath.Math_round zd / 100)%float loudness in
  let config := Index.attachMetrics cfg m in
  (JSMath.within 60 200 (avgTempo m) = true /\
   JSMath.Math_round (avgTempo m) = avgTempo m /\
   JSMath.within 0 1 (avgEnergy m) = true /\
   JSMath.within 0 1 (avgValence m) = true /\
   JSMath.within 0 1 (avgAcousticness m) = true /\
   JSMath.within 0 1 (avgDanceability m) = true) /\
  AssetEngine.getBpm config = avgTempo m /\
  Engine.getMusicSpawnRate config = AssetEngine.getMusicSpawnRate config /\
  JSMath.within 400 1500 (Engine.getMusicSpawnRate config) = true /\
  JSMath.within 0.35 2.17 (Engine.getMusicSpeedMultiplier config) = true /\
  JSMath.within 0.5 1.2 (1.2 - avgAcousticness m * 0.7) = true.
Proof.
  intros Ht He Hv Ha Hd m config.
  destruct (rounded_envelope zt ze Ht He) as (T1 & T2 & T3 & T4 & T5).
  unfold config, m, Engine.getMusicSpawnRate, AssetEngine.getMusicSpawnRate,
    Engine.getMusicSpeedMultiplier, AssetEngine.getBeatMs, AssetEngine.getBpm,
    Index.attachMetrics.
  cbn [metrics option_map JS.or_else avgTempo avgEnergy avgValence
       avgAcousticness avgDanceability].
  rewrite T1.
  repeat split; try assumption; try (now apply percent_within).
  now apply gravity_factor_within.
Qed.

(** The fallback metrics are of that form. *)
Lemma fallback_is_rounded (seed : Z) :
  (0 <= seed)%Z ->
  JSMath.within 60 200 (90 + JSMath.ofZ (Z.rem seed 80)) = true /\
  JSMath.within 0 100 ((JSMath.ofZ (Z.rem seed 80) / 100 + 0.2) * 100) = true /\
  JSMath.within 0 100 ((JSMath.ofZ (Z.rem seed 70) / 100 + 0.15) * 100) = true /\
  JSMath.within 0 100 ((JSMath.ofZ (Z.rem seed 60) / 100 + 0.1) * 100) = true /\
  JSMath.within 0 100 ((JSMath.ofZ (Z.rem seed 75) / 100 + 0.2) * 100) = true.
Proof.
  intros Hs. repeat split.
  - apply (rem_enum (fun k => JSMath.within 60 200 (90 + JSMath.ofZ k))
             80 seed Hs); [lia | vm_compute; reflexivity].
  - apply (rem_enum (fun k => JSMath.within 0 100
                                ((JSMath.ofZ k / 100 + 0.2) * 100))
             80 seed Hs); [lia | vm_compute; reflexivity].
  - apply (rem_enum (fun k => JSMath.within 0 100
                                ((JSMath.ofZ k / 100 + 0.15) * 100))
             70 seed Hs); [lia | vm_compute; reflexivity].
  - apply (rem_enum (fun k => JSMath.within 0 100
                                ((JSMath.ofZ k / 100 + 0.1) * 100))
             60 seed Hs); [lia | vm_compute; reflexivity].
  - apply (rem_enum (fun k => JSMath.within 0 100
                                ((JSMath.ofZ k / 100 + 0.2) * 100))
             75 seed Hs); [lia | vm_compute; reflexivity].
Qed.

(** X19: whatever the request and whatever Spotify answered (no token, no
    playlist, no tracks, or tracks without negative popularity or
    duration), the metrics of the response are in range: a whole tempo
    in [60, 200] and energy, valence, acousticness and danceability in
    [0, 1]. Attached to any configuration they keep the engine in a
    fixed envelope: the tempo is never replaced by the default 120, both
    engine sources compute the same spawn interval, in [400, 1500] ms, the
    speed multiplier lies in [0.35, 2.17] and the gravity factor in
    [0.5, 1.2]. *)
Theorem handler_metrics_drive_the_engine
    (playlistId : option Index.jsString) (world : Fetched)
    (cfg : GameConfiguration) :
  worldOk world = true ->
  let m := handler playlistId world in
  let config := Index.attachMetrics cfg m in
  (JSMath.within 60 200 (avgTempo m) = true /\
   JSMath.Math_round (avgTempo m) = avgTempo m /\
   JSMath.within 0 1 (avgEnergy m) = true /\
   JSMath.within 0 1 (avgValence m) = true /\
   JSMath.within 0 1 (avgAcousticness m) = true /\
   JSMath.within 0 1 (avgDanceability m) = true) /\
  AssetEngine.getBpm config = avgTempo m /\
  Engine.getMusicSpawnRate config = AssetEngine.getMusicSpawnRate config /\
  JSMath.within 400 1500 (Engine.getMusicSpawnRate config) = true /\
  JSMath.within 0.35 2.17 (Engine.getMusicSpeedMultiplier config) = true /\
  JSMath.within 0.5 1.2 (1.2 - avgAcousticness m * 0.7) = true.
Proof.
  intros Hok.
  assert (Hfb : forall id name image count,
            let m := withHeader name image count (generateFallbackMetrics id) in
            let config := Index.attachMetrics cfg m in
            (JSMath.within 60 200 (avgTempo m) = true /\
             JSMath.Math_round (avgTempo m) = avgTempo m /\
             JSMath.within 0 1 (avgEnergy m) = true /\
             JSMath.within 0 1 (avgValence m) = true /\
             JSMath.within 0 1 (avgAcousticness m) = true /\
             JSMath.within 0 1 (avgDanceability m) = true) /\
            AssetEngine.getBpm config = avgTempo m /\
            Engine.getMusicSpawnRate config
              = AssetEngine.getMusicSpawnRate config /\
            JSMath.within 400 1500 (Engine.getMusicSpawnRate config) = true /\
            JSMath.within 0.35 2.17 (Engine.getMusicSpeedMultiplier config)
              = true /\
            JSMath.within 0.5 1.2 (1.2 - avgAcousticness m * 0.7) = true).
  { intros id name image count.
    destruct (fallback_is_rounded (seedOf id) (seedOf_nonneg id))
      as (Ft & Fe & Fv & Fa & Fd).
    exact (rounded_metrics_envelope name image count _ _ _ _ _ _ cfg
             Ft Fe Fv Fa Fd). }
  assert (Hfb' : forall id,
            let m := generateFallbackMetrics id in
            let config := Index.attachMetrics cfg m in
            (JSMath.within 60 200 (avgTempo m) = true /\
             JSMath.Math_round (avgTempo m) = avgTempo m /\
             JSMath.within 0 1 (avgEnergy m) = true /\
             JSMath.within 0 1 (avgValence m) = true /\
             JSMath.within 0 1 (avgAcousticness m) = true /\
             JSMath.within 0 1 (avgDanceability m) = true) /\
            AssetEngine.getBpm config = avgTempo m /\
            Engine.getMusicSpawnRate config
              = AssetEngine.getMusicSpawnRate config /\
            JSMath.within 400 1500 (Engine.getMusicSpawnRate config) = true /\
            JSMath.within 0.35 2.17 (Engine.getMusicSpeedMultiplier config)
              = true /\
            JSMath.within 0.5 1.2 (1.2 - avgAcousticness m * 0.7) = true).
  { intros id.
    destruct (fallback_is_rounded (seedOf id) (seedOf_nonneg id))
      as (Ft & Fe & Fv & Fa & Fd).
    exact (rounded_metrics_envelope _ _ _ _ _ _ _ _ _ cfg Ft Fe Fv Fa Fd). }
  unfold handler.
  destruct playlistId as [[|c id]|]; try apply Hfb'.
  destruct world as [| |name image total items g];
    [apply Hfb' | apply Hfb |].
  cbv zeta. cbn [worldOk] in Hok.
  set (tracks := firstn 50 items) in *.
  destruct (0 <? List.length tracks)%nat eqn:Hlen; [|apply Hfb].
  apply Nat.ltb_lt in Hlen.
  assert (Hlen' : 1 <= List.length tracks <= 50).
  { split; [lia|]. unfold tracks. rewrite length_firstn. lia. }
  assert (Hp : PrimFloat.is_nan (avgPopOf tracks) = false).
  { apply average_not_nan; [right; right; now eexists _, _ | exact Hlen' |].
    rewrite forallb_forall in Hok |- *. intros t Ht.
    specialize (Hok t Ht). unfold trackOk in Hok.
    now apply andb_true_iff in Hok as [Hok _]. }
  assert (Hd : PrimFloat.is_nan (avgDurOf tracks) = false).
  { apply average_not_nan; [right; right; now eexists _, _ | exact Hlen' |].
    rewrite forallb_forall in Hok |- *. intros t Ht.
    specialize (Hok t Ht). unfold trackOk in Hok.
    now apply andb_true_iff in Hok as [_ Hok]. }
  destruct (estimates_not_nan (avgPopOf tracks) (avgDurOf tracks)
              (explicitRatioOf tracks) g Hp Hd) as (Et & Ee & Ev & Ea & Edn).
  unfold estimateMetrics, clamp01. cbv zeta.
  apply rounded_metrics_envelope;
    try (apply mul_100_within); now apply max_min_within.
Qed.

Lemma handler_metrics_drive_the_engine_witness :
  let tracks := [mkTrack (Some 80%float) (Some 210000%float) true;
                 mkTrack None (Some 185000%float) false] in
  let world := PlaylistOk "Mix" "" (Some 2%float) tracks
                 (mkFlags true false false false true false false) in
  let m := handler (Some (Index.lit "37i9dQZF1DXcBWIGoYBM5M")) world in
  worldOk world = true /\
  JSMath.within 400 1500
    (Engine.getMusicSpawnRate (Index.attachMetrics Samples.bare m)) = true.
Proof.
  intros tracks world m. split; [reflexivity|].
  apply (handler_metrics_drive_the_engine
           (Some (Index.lit "37i9dQZF1DXcBWIGoYBM5M")) world Samples.bare).
  reflexivity.
Defined.

End Estimation.
